(** * The secure-QR container decoder of [app.py]

    A shallow embedding of [decode_secure_qr] (app.py, lines 34-102): the part
    of the function that works on the [decompressed] byte buffer.  The two
    steps before it (base-10 string to bytes, zlib inflation) are library
    calls whose result is the buffer taken here as the input.

    Python values are modelled as follows:
    - [bytes]            as [list byte];
    - [int]              as [Z] (offsets included: [tail_start] can be negative);
    - [str]              as [string]: after an ISO-8859-1 decoding every code
                         point is below 256, one [ascii] per character;
    - [dict] of [str]    as [gmap string string];
    - a raised exception as a constructor of [decode_error]. *)

From Stdlib Require Import ZArith NArith List Lia.
From Stdlib.Strings Require Import String Ascii Byte.
From stdpp Require Import base option list gmap strings fin_maps sorting relations.

Local Open Scope Z_scope.

(** ** Python primitives *)

(** [s[start:stop]]: each bound is adjusted as CPython's
    [PySlice_AdjustIndices] does for a step of 1: a negative bound counts from
    the end and is clamped to 0, any other bound is clamped to the length;
    the slice is empty when the adjusted stop is not after the adjusted start.
    Slicing never raises. *)
Definition adjust_index (i len : Z) : Z :=
  if i <? 0 then Z.max (i + len) 0 else Z.min i len.

Definition py_slice {A : Type} (s : list A) (start stop : Z) : list A :=
  let n := Z.of_nat (length s) in
  let a := adjust_index start n in
  let b := adjust_index stop n in
  take (Z.to_nat (b - a)) (drop (Z.to_nat a) s).

(** [bs.decode("ISO-8859-1")]: byte [n] becomes code point [n]; it cannot fail. *)
Definition latin1_decode (bs : list byte) : string := string_of_list_byte bs.

(** [bs.hex()]: two lowercase hexadecimal digits per byte. *)
Definition hex_digits : list ascii := list_ascii_of_string "0123456789abcdef".

Definition hex_digit (n : N) : ascii := nth (N.to_nat n) hex_digits "0"%char.

Fixpoint py_hex (bs : list byte) : string :=
  match bs with
  | [] => EmptyString
  | b :: rest =>
      String (hex_digit (Byte.to_N b / 16))
        (String (hex_digit (Byte.to_N b mod 16)) (py_hex rest))
  end.

(** [base64.b64encode(bs).decode('utf-8')]: three bytes give four characters
    of the standard alphabet, the last group is padded with [=]; there is no
    line break. *)
Definition b64_alphabet : list ascii :=
  list_ascii_of_string
    "ABCDEFGHIJKLMNOPQRSTUVWXYZabcdefghijklmnopqrstuvwxyz0123456789+/".

Definition b64_char (n : N) : ascii := nth (N.to_nat n) b64_alphabet "="%char.

Fixpoint b64encode (bs : list byte) : string :=
  match bs with
  | [] => EmptyString
  | [a] =>
      let n := (Byte.to_N a * 65536)%N in
      String (b64_char (n / 262144))
        (String (b64_char (n / 4096 mod 64)) "==")
  | [a; b] =>
      let n := (Byte.to_N a * 65536 + Byte.to_N b * 256)%N in
      String (b64_char (n / 262144))
        (String (b64_char (n / 4096 mod 64))
           (String (b64_char (n / 64 mod 64)) "="))
  | a :: b :: c :: rest =>
      let n := (Byte.to_N a * 65536 + Byte.to_N b * 256 + Byte.to_N c)%N in
      String (b64_char (n / 262144))
        (String (b64_char (n / 4096 mod 64))
           (String (b64_char (n / 64 mod 64))
              (String (b64_char (n mod 64)) (b64encode rest))))
  end.

(** [int(s)] for a string of code points below 256, after CPython's
    [PyLong_FromUnicodeObject] and [PyLong_FromString] in base 10: white space
    around the literal is skipped (the ASCII white space, and U+0085 and
    U+00A0, which are turned into a space first), one sign is allowed, then
    decimal digits with single underscores between them.  [None] stands for
    the [ValueError]. *)
Definition is_space (c : ascii) : bool :=
  let n := N_of_ascii c in
  ((9 <=? n) && (n <=? 13) || (n =? 32) || (n =? 133) || (n =? 160))%N.

Definition digit_value (c : ascii) : option Z :=
  let n := N_of_ascii c in
  if ((48 <=? n) && (n <=? 57))%N then Some (Z.of_N n - 48) else None.

Definition is_underscore (c : ascii) : bool := (N_of_ascii c =? 95)%N.

Fixpoint skip_spaces (s : list ascii) : list ascii :=
  match s with
  | [] => []
  | c :: rest => if is_space c then skip_spaces rest else s
  end.

(** The digits of the literal: the value read so far, the number of digits
    (underscores are not counted) and what follows the literal. *)
Fixpoint scan_digits (s : list ascii) (prev_underscore : bool) (acc : Z)
    (digits : nat) : option (Z * nat * list ascii) :=
  match s with
  | [] => if prev_underscore then None else Some (acc, digits, [])
  | c :: rest =>
      match digit_value c with
      | Some d => scan_digits rest false (10 * acc + d) (S digits)
      | None =>
          if is_underscore c then
            if prev_underscore then None else scan_digits rest true acc digits
          else if prev_underscore then None
          else Some (acc, digits, s)
      end
  end.

(** [sys.get_int_max_str_digits()], CPython's default. *)
Definition int_max_str_digits : nat := 4300.

Definition py_int (s : string) : option Z :=
  let s1 := skip_spaces (list_ascii_of_string s) in
  let '(sign, s2) :=
    match s1 with
    | c :: rest =>
        if (N_of_ascii c =? 43)%N then (1, rest)
        else if (N_of_ascii c =? 45)%N then (-1, rest)
        else (1, s1)
    | [] => (1, s1)
    end in
  match s2 with
  | [] => None
  | c :: _ =>
      if is_underscore c then None
      else
        match scan_digits s2 false 0 0 with
        | None => None
        | Some (v, digits, rest) =>
            if (digits =? 0)%nat then None
            else
              match skip_spaces rest with
              | [] => if (int_max_str_digits <? digits)%nat then None
                      else Some (sign * v)
              | _ :: _ => None
              end
        end
  end.

(** [dict(pairs)]: the pairs are inserted from left to right, so a later
    value replaces an earlier one under the same key. *)
Definition py_dict (pairs : list (string * string)) : gmap string string :=
  foldl (fun d kv => <[kv.1 := kv.2]> d) ∅ pairs.

(** The truth value of [mobile] and [email] in [if mobile:]: [None] and the
    empty string are false. *)
Definition truthy (v : option string) : bool :=
  match v with
  | None => false
  | Some EmptyString => false
  | Some (String _ _) => true
  end.

(** ** The decoder *)

(** What [decode_secure_qr] raises.  The source raises a plain [Exception]
    with a message; the constructors name the raise sites:
    - [MalformedContainer]: "Not enough delimiters found; expected 16 text
      fields." (line 42);
    - [FieldDecodeError]: "Error decoding text field: ..." (line 50), which
      the ISO-8859-1 decoding never triggers;
    - [FieldCountMismatch]: "Unexpected number of text fields extracted."
      (line 60);
    - [InvalidIndicator]: "Invalid indicator value: ..." (line 67);
    - [UncaughtIndexError]: the [IndexError] of [delimiter_positions[-1]]
      on an empty list (line 78), outside every [try];
    - [TruncatedContainer]: the bounds failure of the specification, which
      has no raise site in the source. *)
Inductive decode_error : Type :=
  | MalformedContainer
  | FieldDecodeError
  | FieldCountMismatch
  | InvalidIndicator
  | UncaughtIndexError
  | TruncatedContainer.

Inductive result : Type :=
  | Ok (record : gmap string string)
  | Err (e : decode_error).

Definition delimiter : byte := xff.

(** Lines 35-40: the loop over [enumerate(decompressed)].  [bs] is what is
    left to read, [i] its offset, [delimiter_positions] the list built so
    far; the [break] returns as soon as the list has 16 entries. *)
Fixpoint scan_delimiters (bs : list byte) (i : Z) (delimiter_positions : list Z)
    : list Z :=
  match bs with
  | [] => delimiter_positions
  | b :: rest =>
      if Byte.eqb b delimiter then
        let delimiter_positions := delimiter_positions ++ [i] in
        if (length delimiter_positions =? 16)%nat then delimiter_positions
        else scan_delimiters rest (i + 1) delimiter_positions
      else scan_delimiters rest (i + 1) delimiter_positions
  end.

(** Lines 44-52: one field per delimiter position, [start] moving to the
    byte after the delimiter. *)
Fixpoint extract_fields (decompressed : list byte) (start : Z)
    (positions : list Z) : list string :=
  match positions with
  | [] => []
  | pos :: rest =>
      latin1_decode (py_slice decompressed start pos)
        :: extract_fields decompressed (pos + 1) rest
  end.

Definition keys : list string :=
  [ "indicator"; "referenceId"; "name"; "dob"; "gender";
    "care_of"; "district"; "landmark"; "house"; "location";
    "pin_code"; "post_office"; "state"; "street"; "sub_district"; "VTC" ]%string.

(** Lines 69-73. *)
Definition tail_extra (indicator : Z) : Z :=
  if indicator =? 3 then 64
  else if (indicator =? 1) || (indicator =? 2) then 32
  else 0.

(** Lines 75-76. *)
Definition tail_length (indicator : Z) : Z := 256 + tail_extra indicator.

Definition tail_start (decompressed : list byte) (indicator : Z) : Z :=
  Z.of_nat (length decompressed) - tail_length indicator.

(** Lines 84-93: a contact value is the hexadecimal text of the reversed
    slice [decompressed[start:stop]]. *)
Definition contact_hex (decompressed : list byte) (start stop : Z) : string :=
  py_hex (rev (py_slice decompressed start stop)).

(** Lines 81-93: [mobile] and [email], [None] where the source leaves them. *)
Definition contact_fields (decompressed : list byte) (indicator : Z)
    : option string * option string :=
  let tail_start := tail_start decompressed indicator in
  if indicator =? 3 then
    (Some (contact_hex decompressed tail_start (tail_start + 32)),
     Some (contact_hex decompressed (tail_start + 32) (tail_start + 64)))
  else if indicator =? 1 then
    (Some (contact_hex decompressed tail_start (tail_start + 32)), None)
  else if indicator =? 2 then
    (None, Some (contact_hex decompressed tail_start (tail_start + 32)))
  else (None, None).

(** Lines 97-100: the key is set only when the value is true. *)
Definition set_if_true (key : string) (v : option string)
    (d : gmap string string) : gmap string string :=
  match v with
  | Some s => if truthy v then <[key := s]> d else d
  | None => d
  end.

(** Lines 78-102, once the indicator is known. *)
Definition build_result (decompressed : list byte) (last_delimiter : Z)
    (text_data : gmap string string) (indicator : Z) : gmap string string :=
  let tail_start := tail_start decompressed indicator in
  let photo_bytes := py_slice decompressed (last_delimiter + 1) tail_start in
  let photo_b64 := b64encode photo_bytes in
  let '(mobile, email) := contact_fields decompressed indicator in
  let result := text_data in
  let result := <["photo"%string := photo_b64]> result in
  let result := set_if_true "mobile" mobile result in
  let result := set_if_true "email" email result in
  result.

(** Lines 34-102.  [text_data["indicator"]] and [int] are both inside the
    [try] of lines 64-67, so a missing key and a [ValueError] give the same
    error. *)
Definition decode_secure_qr (decompressed : list byte) : result :=
  let delimiter_positions := scan_delimiters decompressed 0 [] in
  if (length delimiter_positions <? 16)%nat then Err MalformedContainer
  else
    let text_fields := extract_fields decompressed 0 delimiter_positions in
    if negb (length text_fields =? length keys)%nat then Err FieldCountMismatch
    else
      let text_data := py_dict (zip keys text_fields) in
      match text_data !! "indicator"%string ≫= py_int with
      | None => Err InvalidIndicator
      | Some indicator =>
          match last delimiter_positions with
          | None => Err UncaughtIndexError
          | Some last_delimiter =>
              Ok (build_result decompressed last_delimiter text_data indicator)
          end
      end.

(** ** The run of the decoder as a transition system

    The same lines as a machine that takes one step per loop iteration and
    per test: [Scanning] is the loop of lines 36-40, [Scanned] the test of
    line 41, [Splitting] the loop of lines 46-52, [Mapped] lines 59-102 and
    [Done] the return or the raise.  A state holds the local variables that
    are live at that point and nothing else. *)
Inductive state : Type :=
  | Scanning (i : Z) (rest : list byte) (delimiter_positions : list Z)
  | Scanned (delimiter_positions : list Z)
  | Splitting (start : Z) (todo : list Z) (text_fields : list string)
      (delimiter_positions : list Z)
  | Mapped (text_fields : list string) (delimiter_positions : list Z)
  | Done (r : result).

Inductive step (decompressed : list byte) : state -> state -> Prop :=
  | step_scan_exhausted i ps :
      step decompressed (Scanning i [] ps) (Scanned ps)
  | step_scan_other i b rest ps :
      b <> delimiter ->
      step decompressed (Scanning i (b :: rest) ps) (Scanning (i + 1) rest ps)
  | step_scan_found i rest ps :
      length (ps ++ [i]) <> 16%nat ->
      step decompressed (Scanning i (delimiter :: rest) ps)
        (Scanning (i + 1) rest (ps ++ [i]))
  | step_scan_break i rest ps :
      length (ps ++ [i]) = 16%nat ->
      step decompressed (Scanning i (delimiter :: rest) ps) (Scanned (ps ++ [i]))
  | step_not_enough ps :
      (length ps < 16)%nat ->
      step decompressed (Scanned ps) (Done (Err MalformedContainer))
  | step_enough ps :
      (16 <= length ps)%nat ->
      step decompressed (Scanned ps) (Splitting 0 ps [] ps)
  | step_field start pos todo fields ps :
      step decompressed (Splitting start (pos :: todo) fields ps)
        (Splitting (pos + 1) todo
           (fields ++ [latin1_decode (py_slice decompressed start pos)]) ps)
  | step_fields_done start fields ps :
      step decompressed (Splitting start [] fields ps) (Mapped fields ps)
  | step_count_mismatch fields ps :
      length fields <> length keys ->
      step decompressed (Mapped fields ps) (Done (Err FieldCountMismatch))
  | step_invalid_indicator fields ps :
      length fields = length keys ->
      py_dict (zip keys fields) !! "indicator"%string ≫= py_int = None ->
      step decompressed (Mapped fields ps) (Done (Err InvalidIndicator))
  | step_no_last fields ps indicator :
      length fields = length keys ->
      py_dict (zip keys fields) !! "indicator"%string ≫= py_int = Some indicator ->
      last ps = None ->
      step decompressed (Mapped fields ps) (Done (Err UncaughtIndexError))
  | step_return fields ps indicator last_delimiter :
      length fields = length keys ->
      py_dict (zip keys fields) !! "indicator"%string ≫= py_int = Some indicator ->
      last ps = Some last_delimiter ->
      step decompressed (Mapped fields ps)
        (Done (Ok (build_result decompressed last_delimiter
                     (py_dict (zip keys fields)) indicator))).

(** A complete run on [decompressed] ends in [r]. *)
Definition runs (decompressed : list byte) (r : result) : Prop :=
  rtc (step decompressed) (Scanning 0 decompressed []) (Done r).

(** ** Notions the statements use *)

(** Every offset that holds the delimiter, in a buffer whose first byte is
    at offset [i]. *)
Fixpoint sentinel_offsets_from (i : Z) (bs : list byte) : list Z :=
  match bs with
  | [] => []
  | b :: rest =>
      if Byte.eqb b delimiter then i :: sentinel_offsets_from (i + 1) rest
      else sentinel_offsets_from (i + 1) rest
  end.

Definition sentinel_offsets (bs : list byte) : list Z :=
  sentinel_offsets_from 0 bs.

(** How many bytes of the buffer are the delimiter. *)
Definition count_delimiters (bs : list byte) : nat :=
  count_occ byte_eq_dec bs delimiter.

(** The bytes before the first delimiter. *)
Fixpoint first_segment (bs : list byte) : list byte :=
  match bs with
  | [] => []
  | b :: rest => if Byte.eqb b delimiter then [] else b :: first_segment rest
  end.

(** Text segments written one after the other, a delimiter after each. *)
Definition join_segments (segs : list (list byte)) : list byte :=
  flat_map (fun seg => seg ++ [delimiter]) segs.

(** The offsets of the delimiters of [join_segments segs] when its first
    byte is at offset [start]. *)
Fixpoint segment_ends (start : Z) (segs : list (list byte)) : list Z :=
  match segs with
  | [] => []
  | seg :: rest =>
      let pos := start + Z.of_nat (length seg) in
      pos :: segment_ends (pos + 1) rest
  end.

(** A segment that holds no delimiter. *)
Definition delimiter_free (seg : list byte) : Prop := delimiter ∉ seg.

#[global] Instance byte_eq_decision : EqDecision byte := byte_eq_dec.

#[global] Instance delimiter_free_dec (seg : list byte) :
  Decision (delimiter_free seg).
Proof. unfold delimiter_free. apply _. Defined.

(** The bytes at offsets [a], ..., [b - 1] of a buffer, for offsets inside it. *)
Definition sub_bytes (bs : list byte) (a b : nat) : list byte :=
  take (b - a) (drop a bs).

(** A character of base64 text: the standard alphabet and the padding. *)
Definition b64_text_char (c : ascii) : Prop :=
  c ∈ b64_alphabet ∨ c = "="%char.

(** The character of code point 255, what the delimiter byte decodes to. *)
Definition delimiter_char : ascii := ascii_of_byte delimiter.

(** The record of a result, the empty one for an error. *)
Definition record_of (r : result) : gmap string string :=
  match r with
  | Ok record => record
  | Err _ => ∅
  end.

(** The scenario of the specification: 16 fields, a photo of 10 bytes and a
    signature of 256 zero bytes. *)
Definition scenario_fields : list string :=
  [ "0"; "REF1"; "Name One"; "01-01-1990"; "M"; ""; "D"; ""; "";
    ""; ""; ""; ""; ""; ""; "" ]%string.

Definition scenario_photo : list byte :=
  [x89; x50; x4e; x47; x0d; x0a; x1a; x0a; x00; xff].

Definition scenario : list byte :=
  join_segments (map list_byte_of_string scenario_fields)
    ++ scenario_photo ++ repeat x00 256.

(** The text [v] is the lowercase hexadecimal rendering, 64 characters long,
    of the reversed 32-byte [block]. *)
Definition renders_block (v : option string) (block : list byte) : Prop :=
  length block = 32%nat /\
  v = Some (py_hex (rev block)) /\
  String.length (py_hex (rev block)) = 64%nat /\
  Forall (fun c => c ∈ hex_digits) (list_ascii_of_string (py_hex (rev block))).

(** A container with both contact blocks: indicator 3, a photo of 4 bytes,
    the mobile block, the email block and a signature of 256 zero bytes. *)
Definition mobile_block : list byte := repeat x11 31 ++ [x01].

Definition email_block : list byte := repeat x22 31 ++ [x02].

Definition contact_container : list byte :=
  join_segments ([x33] :: repeat [] 15)
    ++ [xde; xad; xbe; xef] ++ mobile_block ++ email_block ++ repeat x00 256.

(** The contact blocks that an indicator declares, in the order in which the
    decoder reads them: the mobile block, then the email block. *)
Definition declared_contacts (indicator : Z) (mobile email : list byte)
    : list byte :=
  if decide (indicator = 3) then mobile ++ email
  else if decide (indicator = 1) then mobile
  else if decide (indicator = 2) then email
  else [].

(** A synthetic container as the decoder reads it: the 16 closed segments,
    the photo, the contact blocks, and the signature at the very end. *)
Definition container (segs : list (list byte))
    (photo contacts signature : list byte) : list byte :=
  join_segments segs ++ photo ++ contacts ++ signature.

(** The other order of the tail: the signature, then the contact blocks. *)
Definition container_signature_first (segs : list (list byte))
    (photo contacts signature : list byte) : list byte :=
  join_segments segs ++ photo ++ signature ++ contacts.

(** A buffer of 17 bytes: the indicator 0 and 16 delimiters, nothing else. *)
Definition truncated_container : list byte := x30 :: repeat xff 16.

(** A buffer of 217 bytes with the indicator 1: shorter than its tail of 288
    bytes, so that [tail_start] is negative. *)
Definition overlapping_container : list byte :=
  x31 :: repeat xff 16 ++ repeat x41 200.

(** The buffer is at least as long as the tail its indicator declares. *)
Definition long_enough (decompressed : list byte) (indicator : Z) : Prop :=
  0 <= tail_start decompressed indicator.

(** A buffer of 130 bytes with the indicator 1: its mobile slice is
    [decompressed[-158:-126]], the first 4 bytes of the buffer. *)
Definition short_mobile_container : list byte :=
  x31 :: repeat xff 16 ++ repeat x41 113.

(** ** The conversion of the QR text to bytes *)

(** [n.bit_length()]: the number of bits of the absolute value, 0 for 0. *)
Definition bit_length (n : Z) : Z :=
  if n =? 0 then 0 else Z.log2 (Z.abs n) + 1.

Definition byte_of_Z (z : Z) : byte := default x00 (Byte.of_N (Z.to_N z)).

(** The [len] low bytes of [n], the lowest first. *)
Fixpoint low_bytes (len : nat) (n : Z) : list byte :=
  match len with
  | O => []
  | S len => byte_of_Z (n mod 256) :: low_bytes len (n / 256)
  end.

(** [n.to_bytes(length, 'big')], unsigned as by default.  [None] stands for
    the [OverflowError] of a negative [n] and of an [n] that does not fit
    into [length] bytes, and for the [ValueError] of a negative [length]. *)
Definition to_bytes_big (n length : Z) : option (list byte) :=
  if (n <? 0) || (length <? 0) then None
  else if 256 ^ length <=? n then None
  else Some (rev (low_bytes (Z.to_nat length) n)).

(** ** [int] under the settings of the interpreter *)

(** The literal that [int(s)] reads, before the limit on the number of digits
    is applied: its value and the number of its digits.  It is [py_int]
    without its last test. *)
Definition parse_literal (s : string) : option (Z * nat) :=
  let s1 := skip_spaces (list_ascii_of_string s) in
  let '(sign, s2) :=
    match s1 with
    | c :: rest =>
        if (N_of_ascii c =? 43)%N then (1, rest)
        else if (N_of_ascii c =? 45)%N then (-1, rest)
        else (1, s1)
    | [] => (1, s1)
    end in
  match s2 with
  | [] => None
  | c :: _ =>
      if is_underscore c then None
      else
        match scan_digits s2 false 0 0 with
        | None => None
        | Some (v, digits, rest) =>
            if (digits =? 0)%nat then None
            else
              match skip_spaces rest with
              | [] => Some (sign * v, digits)
              | _ :: _ => None
              end
        end
  end.

(** CPython tests the limit only for a literal of more than 640 digits
    ([_PY_LONG_MAX_STR_DIGITS_THRESHOLD]). *)
Definition max_str_digits_threshold : nat := 640.

(** The test of the limit [max_str_digits], the value that
    [sys.set_int_max_str_digits] has stored in the interpreter; 0 switches
    the limit off. *)
Definition exceeds_limit (max_str_digits digits : nat) : bool :=
  ((max_str_digits_threshold <? digits) && (0 <? max_str_digits)
   && (max_str_digits <? digits))%nat.

(** [int(s)] when the limit of the interpreter is [max_str_digits]. *)
Definition py_int_under (max_str_digits : nat) (s : string) : option Z :=
  match parse_literal s with
  | Some (v, digits) =>
      if exceeds_limit max_str_digits digits then None else Some v
  | None => None
  end.

(** Lines 34-102 of [decode_secure_qr] with the builtin [int] of line 65 as a
    parameter; [decode_secure_qr] is the instance at [py_int]. *)
Definition decode_secure_qr_with (int : string -> option Z)
    (decompressed : list byte) : result :=
  let delimiter_positions := scan_delimiters decompressed 0 [] in
  if (length delimiter_positions <? 16)%nat then Err MalformedContainer
  else
    let text_fields := extract_fields decompressed 0 delimiter_positions in
    if negb (length text_fields =? length keys)%nat then Err FieldCountMismatch
    else
      let text_data := py_dict (zip keys text_fields) in
      match text_data !! "indicator"%string ≫= int with
      | None => Err InvalidIndicator
      | Some indicator =>
          match last delimiter_positions with
          | None => Err UncaughtIndexError
          | Some last_delimiter =>
              Ok (build_result decompressed last_delimiter text_data indicator)
          end
      end.

(** The decoder when the limit of the interpreter is [max_str_digits]. *)
Definition decode_secure_qr_under (max_str_digits : nat)
    (decompressed : list byte) : result :=
  decode_secure_qr_with (py_int_under max_str_digits) decompressed.

(** A buffer whose indicator text has 4301 digits: 4300 zeros and a 1. *)
Definition digit_limit_container : list byte :=
  repeat x30 4300 ++ x31 :: repeat xff 16.

(** ** The conversion of any text *)

(** A Python [str] is a sequence of code points.  What [int] makes of a code
    point above the ASCII range is read from two tables of the Unicode
    database, [Py_UNICODE_TODECIMAL] and [Py_UNICODE_ISSPACE]; they and the
    limit on the digits are the parameters of this section. *)
Section UnicodeText.
Variable max_str_digits : nat.
Variable unicode_decimal : N -> option N.
Variable unicode_space : N -> bool.

(** The loop of [_PyUnicode_TransformDecimalAndSpaceToASCII]: an ASCII
    character is kept, a white space becomes a space, a decimal digit of any
    script becomes the ASCII digit, and at the first other character the text
    is cut and closed by a question mark. *)
Fixpoint transform_loop (s : list N) : list ascii :=
  match s with
  | [] => []
  | ch :: rest =>
      if (ch <? 127)%N then ascii_of_N ch :: transform_loop rest
      else if unicode_space ch then " "%char :: transform_loop rest
      else
        match unicode_decimal ch with
        | Some d => ascii_of_N (48 + d) :: transform_loop rest
        | None => ["?"%char]
        end
  end.

(** A text that is ASCII already is returned as it is. *)
Definition transform_decimal_and_space (s : list N) : string :=
  if forallb (fun ch => (ch <? 128)%N) s
  then string_of_list_ascii (map ascii_of_N s)
  else string_of_list_ascii (transform_loop s).

(** [int(s)] for any text [s]. *)
Definition py_int_text (s : list N) : option Z :=
  py_int_under max_str_digits (transform_decimal_and_space s).

(** Lines 22-27 of [decode_secure_qr]: [None] stands for the exception
    "Error converting QR data to bytes: ...", raised for every exception of
    the three lines. *)
Definition convert_qr_data (qr_str : list N) : option (list byte) :=
  match py_int_text qr_str with
  | None => None
  | Some big_int =>
      let nbytes := (bit_length big_int + 7) / 8 in
      to_bytes_big big_int nbytes
  end.
End UnicodeText.

(** A part of the two tables: the ASCII and the Arabic-Indic digits (U+0660
    to U+0669), and the white space above the ASCII range. *)
Definition sample_decimal (ch : N) : option N :=
  if ((48 <=? ch) && (ch <=? 57))%N then Some (ch - 48)%N
  else if ((1632 <=? ch) && (ch <=? 1641))%N then Some (ch - 1632)%N
  else None.

Definition sample_space (ch : N) : bool :=
  ((ch =? 133) || (ch =? 160) || (ch =? 5760)
   || ((8192 <=? ch) && (ch <=? 8202)) || (ch =? 8232) || (ch =? 8233)
   || (ch =? 8239) || (ch =? 8287) || (ch =? 12288))%N.

(** The code points of an ASCII text. *)
Definition code_points (s : string) : list N :=
  map N_of_ascii (list_ascii_of_string s).

(** The number that a sequence of bytes denotes, the highest byte first. *)
Definition from_bytes_big (bs : list byte) : Z :=
  foldl (fun acc b => acc * 256 + Z.of_N (Byte.to_N b)) 0 bs.

Example py_slice_ex1 : py_slice [1; 2; 3; 4; 5] 1 3 = [2; 3].
Proof. reflexivity. Qed.
Example py_slice_ex2 : py_slice [1; 2; 3; 4; 5] 3 (-1) = [4].
Proof. reflexivity. Qed.
Example py_slice_ex3 : py_slice [1; 2; 3; 4; 5] (-9) 9 = [1; 2; 3; 4; 5].
Proof. reflexivity. Qed.
Example py_slice_ex4 : py_slice [1; 2; 3; 4; 5] 4 2 = [].
Proof. reflexivity. Qed.
Example py_hex_ex : py_hex [x00; x0f; xa5; xff] = "000fa5ff"%string.
Proof. reflexivity. Qed.
Example b64_ex1 : b64encode [x4d; x61; x6e] = "TWFu"%string.
Proof. reflexivity. Qed.
Example b64_ex2 : b64encode [x4d; x61] = "TWE="%string.
Proof. reflexivity. Qed.
Example b64_ex3 : b64encode [x4d] = "TQ=="%string.
Proof. reflexivity. Qed.
Example b64_ex4 : b64encode [xfb; xff; xbf; x00] = "+/+/AA=="%string.
Proof. reflexivity. Qed.
Example py_int_ex1 : py_int " -1_0 "%string = Some (-10).
Proof. reflexivity. Qed.
Example py_int_ex2 : py_int "abc"%string = None.
Proof. reflexivity. Qed.
Example py_int_ex3 : py_int "1__0"%string = None.
Proof. reflexivity. Qed.
Example py_int_ex4 : py_int "+ 1"%string = None.
Proof. reflexivity. Qed.
Example py_int_ex5 : py_int "007"%string = Some 7.
Proof. reflexivity. Qed.

(** * Properties *)

(** ** Slices *)

Section Slices.
Context {A : Type}.
Implicit Types s pre mid post : list A.

(** Inside the sequence, with the bounds in order, a slice is the plain
    sub-sequence. *)
Lemma py_slice_inside s (a b : Z) :
  0 <= a -> a <= b -> b <= Z.of_nat (length s) ->
  py_slice s a b = take (Z.to_nat b - Z.to_nat a) (drop (Z.to_nat a) s).
Proof.
  intros Ha Hab Hb. unfold py_slice, adjust_index.
  destruct (Z.ltb_spec a 0); [lia|].
  destruct (Z.ltb_spec b 0); [lia|].
  rewrite !Z.min_l by lia. f_equal. lia.
Qed.

(** With both bounds non-negative and the stop not after the start the
    slice is empty, wherever the bounds lie. *)
Lemma py_slice_backwards s (a b : Z) :
  0 <= b -> b <= a -> py_slice s a b = [].
Proof.
  intros Hb Hba. unfold py_slice, adjust_index.
  destruct (Z.ltb_spec a 0); [lia|].
  destruct (Z.ltb_spec b 0); [lia|].
  replace (Z.to_nat _) with 0%nat by lia. reflexivity.
Qed.

Lemma py_slice_middle pre mid post :
  py_slice (pre ++ mid ++ post) (Z.of_nat (length pre))
    (Z.of_nat (length pre) + Z.of_nat (length mid)) = mid.
Proof.
  rewrite py_slice_inside; [|lia|lia|rewrite !length_app; lia].
  rewrite Nat2Z.id, drop_app_length.
  replace (_ - _)%nat with (length mid) by lia.
  apply take_app_length.
Qed.

Lemma py_slice_length_le s (a b : Z) :
  (length (py_slice s a b) <= length s)%nat.
Proof.
  unfold py_slice. rewrite length_take, length_drop. lia.
Qed.

(** A window of [n] elements that lies inside the sequence has [n]
    elements. *)
Lemma py_slice_window_length s (a : Z) (n : nat) :
  0 <= a -> a + Z.of_nat n <= Z.of_nat (length s) ->
  length (py_slice s a (a + Z.of_nat n)) = n.
Proof.
  intros Ha Hn. rewrite py_slice_inside by lia.
  rewrite length_take, length_drop. lia.
Qed.
End Slices.

(** ** The delimiter scanner *)

Lemma eqb_delimiter_true b : Byte.eqb b delimiter = true <-> b = delimiter.
Proof. split; [apply byte_dec_bl | apply byte_dec_lb]. Qed.

Lemma eqb_delimiter_false b : Byte.eqb b delimiter = false <-> b <> delimiter.
Proof.
  split; [apply eqb_false|].
  intros Hne. destruct (Byte.eqb b delimiter) eqn:E; [|reflexivity].
  apply byte_dec_bl in E. contradiction.
Qed.

Ltac case_delimiter b :=
  let E := fresh "E" in
  destruct (Byte.eqb b delimiter) eqn:E;
  [apply eqb_delimiter_true in E | apply eqb_delimiter_false in E].

(** The loop invariant of lines 36-40: while fewer than 16 positions are
    known, the scan extends them with the next delimiter offsets, up to 16. *)
Lemma scan_delimiters_offsets bs : forall i acc,
  (length acc < 16)%nat ->
  scan_delimiters bs i acc =
    acc ++ take (16 - length acc) (sentinel_offsets_from i bs).
Proof.
  induction bs as [|b rest IH]; intros i acc Hacc; simpl.
  - rewrite take_nil, app_nil_r. reflexivity.
  - destruct (Byte.eqb b delimiter).
    + rewrite length_app. simpl length.
      destruct (Nat.eqb_spec (length acc + 1) 16) as [H16|H16].
      * replace (16 - length acc)%nat with 1%nat by lia.
        simpl. rewrite take_0. reflexivity.
      * rewrite IH by (rewrite length_app; simpl; lia).
        rewrite length_app. simpl length.
        replace (16 - length acc)%nat with (S (16 - (length acc + 1))) by lia.
        simpl. rewrite <- app_assoc. reflexivity.
    + apply IH, Hacc.
Qed.

Lemma sentinel_offsets_from_length i bs :
  length (sentinel_offsets_from i bs) = count_delimiters bs.
Proof.
  unfold count_delimiters. revert i.
  induction bs as [|b rest IH]; intros i; simpl; [reflexivity|].
  case_delimiter b.
  - subst b. destruct (byte_eq_dec delimiter delimiter); [|contradiction].
    simpl. f_equal. apply IH.
  - destruct (byte_eq_dec b delimiter); [contradiction|]. apply IH.
Qed.

(** An offset is listed exactly when the byte there is the delimiter. *)
Lemma sentinel_offsets_from_elem bs : forall i p,
  p ∈ sentinel_offsets_from i bs <->
  i <= p /\ bs !! Z.to_nat (p - i) = Some delimiter.
Proof.
  induction bs as [|b rest IH]; intros i p; simpl.
  - rewrite elem_of_nil, lookup_nil. intuition discriminate.
  - case_delimiter b.
    + rewrite elem_of_cons, IH. subst b. split.
      * intros [->|[Hle Hl]].
        -- rewrite Z.sub_diag. simpl. split; [lia|reflexivity].
        -- split; [lia|].
           replace (Z.to_nat (p - i)) with (S (Z.to_nat (p - (i + 1)))) by lia.
           exact Hl.
      * intros [Hle Hl]. destruct (Z.eq_dec p i) as [->|Hne]; [by left|right].
        split; [lia|].
        replace (Z.to_nat (p - i)) with (S (Z.to_nat (p - (i + 1)))) in Hl by lia.
        exact Hl.
    + rewrite IH. split.
      * intros [Hle Hl]. split; [lia|].
        replace (Z.to_nat (p - i)) with (S (Z.to_nat (p - (i + 1)))) by lia.
        exact Hl.
      * intros [Hle Hl]. destruct (Z.eq_dec p i) as [->|Hne].
        -- rewrite Z.sub_diag in Hl. simpl in Hl. congruence.
        -- split; [lia|].
           replace (Z.to_nat (p - i)) with (S (Z.to_nat (p - (i + 1)))) in Hl by lia.
           exact Hl.
Qed.

(** The offsets come out in strictly ascending order. *)
Lemma sentinel_offsets_from_sorted bs : forall i,
  StronglySorted Z.lt (sentinel_offsets_from i bs).
Proof.
  induction bs as [|b rest IH]; intros i; simpl; [constructor|].
  destruct (Byte.eqb b delimiter); [|apply IH].
  constructor; [apply IH|].
  apply Forall_forall. intros p Hp.
  apply sentinel_offsets_from_elem in Hp. lia.
Qed.

Lemma StronglySorted_take {B : Type} (R : B -> B -> Prop) (l : list B) n :
  StronglySorted R l -> StronglySorted R (take n l).
Proof.
  intros Hl. rewrite <- (take_drop n l) in Hl.
  eapply StronglySorted_app_1_l, Hl.
Qed.

(** ** Buffers that start with delimiter-closed segments *)

Lemma join_segments_cons seg segs :
  join_segments (seg :: segs) = seg ++ delimiter :: join_segments segs.
Proof. unfold join_segments. simpl. rewrite <- app_assoc. reflexivity. Qed.

Lemma segment_ends_length segs : forall start,
  length (segment_ends start segs) = length segs.
Proof. induction segs as [|seg segs IH]; intros start; simpl; [|rewrite IH]; reflexivity. Qed.

Lemma delimiter_free_cons b seg :
  delimiter_free (b :: seg) <-> b <> delimiter /\ delimiter_free seg.
Proof.
  unfold delimiter_free. rewrite not_elem_of_cons. intuition congruence.
Qed.

Lemma sentinel_offsets_from_segment seg : forall i rest,
  delimiter_free seg ->
  sentinel_offsets_from i (seg ++ delimiter :: rest) =
    (i + Z.of_nat (length seg))
      :: sentinel_offsets_from (i + Z.of_nat (length seg) + 1) rest.
Proof.
  induction seg as [|b seg IH]; intros i rest Hfree.
  - simpl. rewrite Z.add_0_r. reflexivity.
  - apply delimiter_free_cons in Hfree as [Hb Hfree].
    apply eqb_delimiter_false in Hb.
    simpl app. simpl sentinel_offsets_from. rewrite Hb, IH by assumption.
    simpl length. rewrite Nat2Z.inj_succ.
    replace (i + Z.succ (Z.of_nat (length seg)))
      with (i + 1 + Z.of_nat (length seg)) by lia.
    reflexivity.
Qed.

Lemma sentinel_offsets_from_join segs : forall i rest,
  Forall delimiter_free segs ->
  sentinel_offsets_from i (join_segments segs ++ rest) =
    segment_ends i segs
      ++ sentinel_offsets_from (i + Z.of_nat (length (join_segments segs))) rest.
Proof.
  induction segs as [|seg segs IH]; intros i rest Hfree.
  - simpl. rewrite Z.add_0_r. reflexivity.
  - apply Forall_cons in Hfree as [Hseg Hfree].
    rewrite join_segments_cons, <- app_assoc. simpl app.
    rewrite sentinel_offsets_from_segment by assumption.
    rewrite IH by assumption. simpl segment_ends.
    rewrite length_app. simpl length. do 2 f_equal.
    f_equal. lia.
Qed.

(** On a buffer that starts with 16 delimiter-free segments the scan returns
    the ends of these segments, whatever follows them. *)
Lemma scan_delimiters_join segs rest :
  Forall delimiter_free segs -> length segs = 16%nat ->
  scan_delimiters (join_segments segs ++ rest) 0 [] = segment_ends 0 segs.
Proof.
  intros Hfree Hlen.
  rewrite scan_delimiters_offsets by (simpl; lia).
  rewrite sentinel_offsets_from_join by assumption.
  simpl. rewrite take_app_length'; [reflexivity|].
  rewrite segment_ends_length. lia.
Qed.

(** A buffer with at least [n] delimiters starts with [n] delimiter-free
    segments, each closed by a delimiter. *)
Lemma split_at_delimiters bs : forall n,
  (n <= count_delimiters bs)%nat ->
  exists segs rest,
    bs = join_segments segs ++ rest /\ length segs = n /\
    Forall delimiter_free segs.
Proof.
  unfold count_delimiters.
  induction bs as [|b bs IH]; intros n Hn.
  - simpl in Hn. exists [], []. repeat split; [simpl; lia|constructor].
  - destruct n as [|n].
    { exists [], (b :: bs). repeat split. constructor. }
    simpl in Hn. destruct (byte_eq_dec b delimiter) as [->|Hb].
    + destruct (IH n) as (segs & rest & -> & Hlen & Hfree); [lia|].
      exists ([] :: segs), rest. repeat split.
      * simpl. lia.
      * constructor; [|assumption]. unfold delimiter_free. apply not_elem_of_nil.
    + destruct (IH (S n) Hn) as (segs & rest & -> & Hlen & Hfree).
      destruct segs as [|seg segs]; [discriminate|].
      apply Forall_cons in Hfree as [Hseg Hfree].
      exists ((b :: seg) :: segs), rest. repeat split.
      * exact Hlen.
      * constructor; [|assumption]. apply delimiter_free_cons. auto.
Qed.

Lemma count_delimiters_app bs1 bs2 :
  count_delimiters (bs1 ++ bs2) = (count_delimiters bs1 + count_delimiters bs2)%nat.
Proof. apply count_occ_app. Qed.

Lemma count_delimiters_join segs :
  Forall delimiter_free segs -> count_delimiters (join_segments segs) = length segs.
Proof.
  intros Hfree.
  rewrite <- sentinel_offsets_from_length with (i := 0).
  rewrite <- (app_nil_r (join_segments segs)).
  rewrite sentinel_offsets_from_join by assumption.
  simpl. rewrite app_nil_r. apply segment_ends_length.
Qed.

Lemma first_segment_app seg rest :
  delimiter_free seg -> first_segment (seg ++ delimiter :: rest) = seg.
Proof.
  induction seg as [|b seg IH]; intros Hfree; [reflexivity|].
  apply delimiter_free_cons in Hfree as [Hb Hfree].
  apply eqb_delimiter_false in Hb. simpl. rewrite Hb, IH by assumption.
  reflexivity.
Qed.

(** The slices of lines 46-52 give back the segments. *)
Lemma extract_fields_join segs : forall pre rest,
  extract_fields (pre ++ join_segments segs ++ rest) (Z.of_nat (length pre))
    (segment_ends (Z.of_nat (length pre)) segs) = map latin1_decode segs.
Proof.
  induction segs as [|seg segs IH]; intros pre rest; [reflexivity|].
  rewrite join_segments_cons, <- app_assoc.
  cbn [segment_ends extract_fields map]. f_equal.
  - f_equal. apply py_slice_middle.
  - specialize (IH (pre ++ seg ++ [delimiter]) rest).
    rewrite !length_app in IH. cbn [length] in IH.
    replace (Z.of_nat (length pre) + Z.of_nat (length seg) + 1)
      with (Z.of_nat (length pre + (length seg + 1))) by lia.
    rewrite <- IH. f_equal.
    rewrite <- !app_assoc. reflexivity.
Qed.

Lemma last_segment_ends segs : forall start,
  segs <> [] ->
  last (segment_ends start segs) =
    Some (start + Z.of_nat (length (join_segments segs)) - 1).
Proof.
  induction segs as [|seg segs IH]; intros start Hne; [contradiction|].
  rewrite join_segments_cons, length_app. cbn [length segment_ends].
  destruct segs as [|seg' segs].
  - cbn [segment_ends last join_segments flat_map length]. f_equal. lia.
  - cbn [segment_ends] in *. rewrite last_cons_cons, IH by discriminate.
    f_equal. lia.
Qed.

(** ** The dictionary of lines 62 and 95-100 *)

Lemma py_dict_fold_other (ks : list string) :
  forall (vs : list string) (d : gmap string string) k,
  k ∉ ks ->
  foldl (fun d kv => <[kv.1 := kv.2]> d) d (zip ks vs) !! k = d !! k.
Proof.
  induction ks as [|k' ks IH]; intros vs d k Hk; [reflexivity|].
  destruct vs as [|v vs]; [reflexivity|].
  apply not_elem_of_cons in Hk as [Hne Hk].
  simpl. rewrite IH by assumption. apply lookup_insert_ne. congruence.
Qed.

Lemma py_dict_fold_lookup (ks : list string) :
  forall (vs : list string) (d : gmap string string) i k v,
  NoDup ks -> ks !! i = Some k -> vs !! i = Some v ->
  foldl (fun d kv => <[kv.1 := kv.2]> d) d (zip ks vs) !! k = Some v.
Proof.
  induction ks as [|k' ks IH]; intros vs d i k v Hnd Hk Hv; [discriminate|].
  destruct vs as [|v' vs]; [discriminate|].
  apply NoDup_cons in Hnd as [Hk' Hnd].
  destruct i as [|i]; simpl in *.
  - injection Hk as ->. injection Hv as ->.
    rewrite py_dict_fold_other by assumption. apply lookup_insert_eq.
  - eapply IH; eassumption.
Qed.

Lemma py_dict_zip_lookup (ks vs : list string) i k v :
  NoDup ks -> ks !! i = Some k -> vs !! i = Some v ->
  py_dict (zip ks vs) !! k = Some v.
Proof. apply py_dict_fold_lookup. Qed.

Lemma py_dict_zip_other (ks vs : list string) k :
  k ∉ ks -> py_dict (zip ks vs) !! k = None.
Proof.
  intros Hk. unfold py_dict. rewrite py_dict_fold_other by assumption.
  apply lookup_empty.
Qed.

Lemma keys_NoDup : NoDup keys.
Proof. compute_done. Qed.

Lemma keys_length : length keys = 16%nat.
Proof. reflexivity. Qed.

Lemma photo_not_key : "photo"%string ∉ keys.
Proof. compute_done. Qed.

Lemma mobile_not_key : "mobile"%string ∉ keys.
Proof. compute_done. Qed.

Lemma email_not_key : "email"%string ∉ keys.
Proof. compute_done. Qed.

Lemma set_if_true_lookup key v d k :
  set_if_true key v d !! k =
    if decide (key = k) then (if truthy v then v else d !! k) else d !! k.
Proof.
  unfold set_if_true. destruct v as [s|]; [|by case_decide].
  destruct (truthy (Some s)).
  - rewrite lookup_insert. by case_decide.
  - by case_decide.
Qed.

(** What the returned record holds under each kind of key. *)
Lemma build_result_photo buf last_delimiter text_data indicator :
  build_result buf last_delimiter text_data indicator !! "photo"%string =
    Some (b64encode
            (py_slice buf (last_delimiter + 1) (tail_start buf indicator))).
Proof.
  unfold build_result. destruct (contact_fields buf indicator) as [mobile email].
  rewrite !set_if_true_lookup.
  rewrite !decide_False by discriminate. apply lookup_insert_eq.
Qed.

Lemma build_result_mobile buf last_delimiter text_data indicator :
  text_data !! "mobile"%string = None ->
  build_result buf last_delimiter text_data indicator !! "mobile"%string =
    let mobile := (contact_fields buf indicator).1 in
    if truthy mobile then mobile else None.
Proof.
  intros Hnone. unfold build_result.
  destruct (contact_fields buf indicator) as [mobile email].
  rewrite !set_if_true_lookup.
  rewrite decide_False by discriminate. rewrite decide_True by reflexivity.
  rewrite lookup_insert_ne by discriminate. rewrite Hnone. reflexivity.
Qed.

Lemma build_result_email buf last_delimiter text_data indicator :
  text_data !! "email"%string = None ->
  build_result buf last_delimiter text_data indicator !! "email"%string =
    let email := (contact_fields buf indicator).2 in
    if truthy email then email else None.
Proof.
  intros Hnone. unfold build_result.
  destruct (contact_fields buf indicator) as [mobile email].
  rewrite !set_if_true_lookup.
  rewrite decide_True by reflexivity. rewrite decide_False by discriminate.
  rewrite lookup_insert_ne by discriminate. rewrite Hnone. reflexivity.
Qed.

Lemma build_result_text buf last_delimiter text_data indicator k :
  k ∈ keys ->
  build_result buf last_delimiter text_data indicator !! k = text_data !! k.
Proof.
  intros Hk. unfold build_result.
  destruct (contact_fields buf indicator) as [mobile email].
  rewrite !set_if_true_lookup.
  rewrite !decide_False.
  - apply lookup_insert_ne. intros <-. by apply photo_not_key.
  - intros <-. by apply mobile_not_key.
  - intros <-. by apply email_not_key.
Qed.

(** ** The decoder on a buffer that starts with 16 segments *)

Lemma decode_segmented segs rest :
  Forall delimiter_free segs -> length segs = 16%nat ->
  decode_secure_qr (join_segments segs ++ rest) =
    match py_int (latin1_decode (hd [] segs)) with
    | None => Err InvalidIndicator
    | Some indicator =>
        Ok (build_result (join_segments segs ++ rest)
              (Z.of_nat (length (join_segments segs)) - 1)
              (py_dict (zip keys (map latin1_decode segs))) indicator)
    end.
Proof.
  intros Hfree Hlen. unfold decode_secure_qr.
  rewrite scan_delimiters_join by assumption.
  rewrite segment_ends_length, Hlen.
  change (16 <? 16)%nat with false. cbv iota.
  pose proof (extract_fields_join segs [] rest) as Hfields.
  change (Z.of_nat (length (@nil byte))) with 0 in Hfields.
  cbn [app] in Hfields. rewrite Hfields.
  rewrite length_map, Hlen, keys_length.
  change (negb (16 =? 16)%nat) with false. cbv iota.
  destruct segs as [|seg0 segs]; [discriminate|].
  rewrite (py_dict_zip_lookup keys _ 0 "indicator" (latin1_decode seg0));
    [|apply keys_NoDup|reflexivity|reflexivity].
  cbn [mbind option_bind hd].
  rewrite last_segment_ends by discriminate.
  reflexivity.
Qed.

(** Every buffer with at least 16 delimiters is such a buffer, and its first
    segment is the text of the indicator. *)
Lemma segmented_of_count buf :
  (16 <= count_delimiters buf)%nat ->
  exists segs rest,
    buf = join_segments segs ++ rest /\ length segs = 16%nat /\
    Forall delimiter_free segs /\ hd [] segs = first_segment buf.
Proof.
  intros Hcount.
  destruct (split_at_delimiters buf 16 Hcount) as (segs & rest & -> & Hlen & Hfree).
  exists segs, rest. repeat split; try assumption.
  destruct segs as [|seg0 segs]; [discriminate|].
  apply Forall_cons in Hfree as [Hseg0 _].
  rewrite join_segments_cons, <- app_assoc. simpl app.
  rewrite first_segment_app by assumption. reflexivity.
Qed.

Lemma decode_not_enough buf :
  (count_delimiters buf < 16)%nat ->
  decode_secure_qr buf = Err MalformedContainer.
Proof.
  intros Hcount. unfold decode_secure_qr.
  rewrite scan_delimiters_offsets by (simpl; lia).
  cbn [app length]. rewrite length_take, sentinel_offsets_from_length.
  destruct (Nat.ltb_spec ((16 - 0) `min` count_delimiters buf) 16);
    [reflexivity|lia].
Qed.

(** A record is returned exactly on the buffers with 16 delimiters whose
    first segment reads as an integer, and then it is this one. *)
Lemma decode_ok_inv buf r :
  decode_secure_qr buf = Ok r ->
  exists segs rest indicator,
    buf = join_segments segs ++ rest /\ length segs = 16%nat /\
    Forall delimiter_free segs /\ hd [] segs = first_segment buf /\
    py_int (latin1_decode (first_segment buf)) = Some indicator /\
    r = build_result buf (Z.of_nat (length (join_segments segs)) - 1)
          (py_dict (zip keys (map latin1_decode segs))) indicator.
Proof.
  intros Hok.
  destruct (Nat.lt_ge_cases (count_delimiters buf) 16) as [Hlt|Hge].
  { rewrite decode_not_enough in Hok by assumption. discriminate. }
  destruct (segmented_of_count buf Hge) as (segs & rest & Hbuf & Hlen & Hfree & Hhd).
  rewrite Hbuf in Hok at 1. rewrite decode_segmented in Hok by assumption.
  rewrite Hhd in Hok.
  destruct (py_int (latin1_decode (first_segment buf))) as [indicator|];
    [|discriminate].
  injection Hok as <-. exists segs, rest, indicator.
  rewrite <- Hbuf. auto 10.
Qed.

Lemma decode_enough buf indicator :
  (16 <= count_delimiters buf)%nat ->
  py_int (latin1_decode (first_segment buf)) = Some indicator ->
  exists segs rest,
    buf = join_segments segs ++ rest /\ length segs = 16%nat /\
    Forall delimiter_free segs /\
    decode_secure_qr buf =
      Ok (build_result buf (Z.of_nat (length (join_segments segs)) - 1)
            (py_dict (zip keys (map latin1_decode segs))) indicator).
Proof.
  intros Hge Hint.
  destruct (segmented_of_count buf Hge) as (segs & rest & Hbuf & Hlen & Hfree & Hhd).
  exists segs, rest. repeat split; try assumption.
  rewrite Hbuf at 1. rewrite decode_segmented by assumption.
  rewrite Hhd, Hint, <- Hbuf. reflexivity.
Qed.

(** The 16th delimiter offset of a segmented buffer. *)
Lemma sixteenth_offset segs rest :
  Forall delimiter_free segs -> length segs = 16%nat ->
  sentinel_offsets (join_segments segs ++ rest) !! 15%nat =
    Some (Z.of_nat (length (join_segments segs)) - 1).
Proof.
  intros Hfree Hlen. unfold sentinel_offsets.
  rewrite sentinel_offsets_from_join by assumption.
  rewrite lookup_app_l by (rewrite segment_ends_length; lia).
  pose proof (last_segment_ends segs 0) as Hlast.
  rewrite last_lookup, segment_ends_length, Hlen in Hlast.
  change (Init.Nat.pred 16) with 15%nat in Hlast.
  rewrite Hlast by (intros ->; discriminate). reflexivity.
Qed.

Lemma join_segments_nonempty segs :
  segs <> [] -> (0 < length (join_segments segs))%nat.
Proof.
  destruct segs as [|seg segs]; [contradiction|]. intros _.
  rewrite join_segments_cons, length_app. simpl. lia.
Qed.

(** ** Hexadecimal and base64 text *)

Lemma py_hex_length bs : String.length (py_hex bs) = (2 * length bs)%nat.
Proof. induction bs as [|b bs IH]; simpl; [|rewrite IH]; lia. Qed.

Lemma truthy_py_hex bs : truthy (Some (py_hex bs)) = true <-> bs <> [].
Proof. destruct bs; simpl; split; (congruence || discriminate). Qed.

Lemma truthy_contact_hex buf a b :
  truthy (Some (contact_hex buf a b)) = true <-> py_slice buf a b <> [].
Proof.
  unfold contact_hex. rewrite truthy_py_hex.
  destruct (py_slice buf a b) as [|x l]; simpl; [tauto|].
  split; [discriminate|]. intros _ Hrev.
  apply (f_equal (@length byte)) in Hrev. rewrite length_app in Hrev.
  simpl in Hrev. lia.
Qed.

Lemma hex_digit_elem n : (n < 16)%N -> hex_digit n ∈ hex_digits.
Proof.
  intros Hn. apply list_elem_of_In, nth_In.
  change (length hex_digits) with 16%nat. lia.
Qed.

Lemma py_hex_chars bs c :
  c ∈ list_ascii_of_string (py_hex bs) -> c ∈ hex_digits.
Proof.
  induction bs as [|b bs IH]; simpl; [by rewrite elem_of_nil|].
  pose proof (Byte.to_N_bounded b) as Hb.
  rewrite !elem_of_cons. intros [->|[->|Hc]]; [| |by apply IH].
  - apply hex_digit_elem, N.Div0.div_lt_upper_bound; lia.
  - apply hex_digit_elem, N.mod_lt. lia.
Qed.

Lemma b64_char_elem n : (n < 64)%N -> b64_char n ∈ b64_alphabet.
Proof.
  intros Hn. apply list_elem_of_In, nth_In.
  change (length b64_alphabet) with 64%nat. lia.
Qed.

Lemma list_ind_by_three {B : Type} (P : list B -> Prop) :
  P [] -> (forall a, P [a]) -> (forall a b, P [a; b]) ->
  (forall a b c l, P l -> P (a :: b :: c :: l)) ->
  forall l, P l.
Proof.
  intros H0 H1 H2 H3 l.
  enough (P l /\ (forall a, P (a :: l)) /\ (forall a b, P (a :: b :: l)))
    by tauto.
  induction l as [|x l (IH0 & IH1 & IH2)]; [auto|].
  repeat split; auto.
Qed.

(** The text of [b64encode] is made of the 64 characters of the standard
    alphabet and of [=]: it holds no line break. *)
Lemma b64encode_chars bs :
  Forall b64_text_char (list_ascii_of_string (b64encode bs)).
Proof.
  induction bs as [|a|a b|a b c bs IH] using list_ind_by_three.
  - constructor.
  - pose proof (Byte.to_N_bounded a).
    cbn [b64encode list_ascii_of_string].
    repeat (apply Forall_cons; split); [..|apply Forall_nil_2].
    + left. apply b64_char_elem, N.Div0.div_lt_upper_bound. lia.
    + left. apply b64_char_elem, N.mod_lt. lia.
    + by right.
    + by right.
  - pose proof (Byte.to_N_bounded a). pose proof (Byte.to_N_bounded b).
    cbn [b64encode list_ascii_of_string].
    repeat (apply Forall_cons; split); [..|apply Forall_nil_2].
    + left. apply b64_char_elem, N.Div0.div_lt_upper_bound. lia.
    + left. apply b64_char_elem, N.mod_lt. lia.
    + left. apply b64_char_elem, N.mod_lt. lia.
    + by right.
  - pose proof (Byte.to_N_bounded a). pose proof (Byte.to_N_bounded b).
    pose proof (Byte.to_N_bounded c).
    cbn [b64encode list_ascii_of_string].
    repeat (apply Forall_cons; split); [..|exact IH].
    + left. apply b64_char_elem, N.Div0.div_lt_upper_bound. lia.
    + left. apply b64_char_elem, N.mod_lt. lia.
    + left. apply b64_char_elem, N.mod_lt. lia.
    + left. apply b64_char_elem, N.mod_lt. lia.
Qed.

Lemma newline_not_b64 : ~ b64_text_char "010"%char.
Proof.
  intros [Hin|Heq]; [|discriminate].
  revert Hin. apply (bool_decide_unpack _). vm_compute. exact I.
Qed.

(** ** The scanner, the indicator and the text fields *)

Lemma scan_delimiters_take buf :
  scan_delimiters buf 0 [] = take 16 (sentinel_offsets buf).
Proof. rewrite scan_delimiters_offsets by (simpl; lia). reflexivity. Qed.

(** C4. The delimiter scanner returns the first 16 offsets that hold the byte
    255: the returned list is the 16-element prefix of the list of all these
    offsets, which is strictly ascending and holds exactly the offsets whose
    byte is 255.  The scan stops at the 16th: replacing whatever follows it in
    the buffer leaves the returned list unchanged.  When fewer than 16 bytes
    of the buffer are 255, the decoder fails with the error of line 42
    (the MalformedContainer of the specification). *)
Theorem C4_delimiter_scanner (buf : list byte) :
  scan_delimiters buf 0 [] = take 16 (sentinel_offsets buf) /\
  StronglySorted Z.lt (sentinel_offsets buf) /\
  StronglySorted Z.lt (scan_delimiters buf 0 []) /\
  (forall p : Z,
     p ∈ sentinel_offsets buf <->
     0 <= p /\ buf !! Z.to_nat p = Some delimiter) /\
  (forall (p : Z) (later : list byte),
     scan_delimiters buf 0 [] !! 15%nat = Some p ->
     scan_delimiters (take (Z.to_nat p + 1) buf ++ later) 0 [] =
       scan_delimiters buf 0 []) /\
  ((16 <= count_delimiters buf)%nat ->
     length (scan_delimiters buf 0 []) = 16%nat) /\
  ((count_delimiters buf < 16)%nat ->
     decode_secure_qr buf = Err MalformedContainer).
Proof.
  pose proof (scan_delimiters_take buf) as Hscan.
  pose proof (sentinel_offsets_from_sorted buf 0) as Hsorted.
  split; [exact Hscan|]. split; [exact Hsorted|]. split.
  { rewrite Hscan. by apply StronglySorted_take. }
  split.
  { intros p. unfold sentinel_offsets.
    rewrite sentinel_offsets_from_elem, Z.sub_0_r. reflexivity. }
  split; [|split].
  - intros p later Hp.
    assert (16 <= count_delimiters buf)%nat as Hcount.
    { rewrite Hscan in Hp. apply lookup_lt_Some in Hp.
      rewrite length_take in Hp. unfold sentinel_offsets in Hp.
      rewrite sentinel_offsets_from_length in Hp. lia. }
    destruct (segmented_of_count buf Hcount)
      as (segs & rest & -> & Hlen & Hfree & _).
    rewrite scan_delimiters_take, lookup_take_lt in Hp by lia.
    rewrite sixteenth_offset in Hp by assumption. injection Hp as <-.
    assert (0 < length (join_segments segs))%nat as Hpos
      by (apply join_segments_nonempty; intros ->; discriminate).
    rewrite take_app_length' by lia.
    rewrite !scan_delimiters_join by assumption. reflexivity.
  - intros Hcount. rewrite Hscan, length_take. unfold sentinel_offsets.
    rewrite sentinel_offsets_from_length. lia.
  - apply decode_not_enough.
Qed.

(** A buffer with 15 delimiters is refused; in a buffer with 17 the scanner
    returns the first 16 offsets. *)
Lemma C4_delimiter_scanner_witness :
  decode_secure_qr (repeat xff 15) = Err MalformedContainer /\
  scan_delimiters (x30 :: repeat xff 17) 0 [] =
    [1; 2; 3; 4; 5; 6; 7; 8; 9; 10; 11; 12; 13; 14; 15; 16].
Proof.
  split.
  - apply (C4_delimiter_scanner (repeat xff 15)). vm_compute. lia.
  - rewrite (proj1 (C4_delimiter_scanner (x30 :: repeat xff 17))).
    reflexivity.
Defined.

(** C6. On a buffer with at least 16 delimiters whose first text segment (the
    bytes before the first delimiter) is empty, or does not read as a base-10
    integer, the decoder fails with the error of line 67 (InvalidIndicator). *)
Theorem C6_invalid_indicator (buf : list byte) :
  (16 <= count_delimiters buf)%nat ->
  first_segment buf = [] \/ py_int (latin1_decode (first_segment buf)) = None ->
  decode_secure_qr buf = Err InvalidIndicator.
Proof.
  intros Hcount Hbad.
  assert (py_int (latin1_decode (first_segment buf)) = None) as Hnone.
  { destruct Hbad as [Hempty|Hnone]; [|exact Hnone]. rewrite Hempty. reflexivity. }
  destruct (segmented_of_count buf Hcount)
    as (segs & rest & Hbuf & Hlen & Hfree & Hhd).
  rewrite Hbuf at 1. rewrite decode_segmented by assumption.
  rewrite Hhd, Hnone. reflexivity.
Qed.

(** The indicator text "abc", and the empty one. *)
Lemma C6_invalid_indicator_witness :
  decode_secure_qr ([x61; x62; x63] ++ repeat xff 16) = Err InvalidIndicator /\
  decode_secure_qr (repeat xff 16) = Err InvalidIndicator.
Proof.
  split.
  - apply (C6_invalid_indicator ([x61; x62; x63] ++ repeat xff 16)).
    + vm_compute. lia.
    + right. reflexivity.
  - apply (C6_invalid_indicator (repeat xff 16)).
    + vm_compute. lia.
    + left. reflexivity.
Defined.

(** C7. On every buffer with at least 16 delimiters whose first field reads
    as an integer the decoder returns a record, whatever the length of the
    buffer: there is no bounds failure.  The photo is the base64 text of the
    slice between the byte after the 16th delimiter and [tail_start], and the
    contact values come from the slices at [tail_start], all taken with the
    clamping of Python's slices; a contact key is set when its value is not
    empty. *)
Theorem C7_record_without_bounds_check (buf : list byte) (indicator : Z) :
  (16 <= count_delimiters buf)%nat ->
  py_int (latin1_decode (first_segment buf)) = Some indicator ->
  exists (r : gmap string string) (last_delimiter : Z),
    decode_secure_qr buf = Ok r /\
    sentinel_offsets buf !! 15%nat = Some last_delimiter /\
    r !! "photo"%string =
      Some (b64encode
              (py_slice buf (last_delimiter + 1) (tail_start buf indicator))) /\
    r !! "mobile"%string =
      (let mobile := (contact_fields buf indicator).1 in
       if truthy mobile then mobile else None) /\
    r !! "email"%string =
      (let email := (contact_fields buf indicator).2 in
       if truthy email then email else None).
Proof.
  intros Hcount Hint.
  destruct (decode_enough buf indicator Hcount Hint)
    as (segs & rest & Hbuf & Hlen & Hfree & Hdec).
  eexists _, _. split; [exact Hdec|]. split.
  { rewrite Hbuf at 1. by apply sixteenth_offset. }
  split; [apply build_result_photo|]. split.
  - apply build_result_mobile, py_dict_zip_other, mobile_not_key.
  - apply build_result_email, py_dict_zip_other, email_not_key.
Qed.

(** A buffer of 17 bytes, far shorter than its tail of 288 bytes: the record
    is returned, with an empty photo and no contact key. *)
Lemma C7_record_without_bounds_check_witness :
  exists (r : gmap string string) (last_delimiter : Z),
    decode_secure_qr (x31 :: repeat xff 16) = Ok r /\
    sentinel_offsets (x31 :: repeat xff 16) !! 15%nat = Some last_delimiter /\
    r !! "photo"%string =
      Some (b64encode
              (py_slice (x31 :: repeat xff 16) (last_delimiter + 1)
                 (tail_start (x31 :: repeat xff 16) 1))) /\
    r !! "mobile"%string =
      (let mobile := (contact_fields (x31 :: repeat xff 16) 1).1 in
       if truthy mobile then mobile else None) /\
    r !! "email"%string =
      (let email := (contact_fields (x31 :: repeat xff 16) 1).2 in
       if truthy email then email else None).
Proof.
  apply (C7_record_without_bounds_check (x31 :: repeat xff 16) 1).
  - vm_compute. lia.
  - reflexivity.
Defined.

Lemma latin1_decode_chars seg :
  list_ascii_of_string (latin1_decode seg) = map ascii_of_byte seg.
Proof. apply list_ascii_of_string_of_list_ascii. Qed.

Lemma latin1_decode_delimiter_free seg :
  delimiter_free seg -> delimiter_char ∉ list_ascii_of_string (latin1_decode seg).
Proof.
  intros Hfree Hin. rewrite latin1_decode_chars in Hin.
  apply list_elem_of_fmap in Hin as (b & Hb & Hin).
  apply Hfree. replace delimiter with b; [exact Hin|].
  rewrite <- (byte_of_ascii_of_byte b), <- Hb. apply byte_of_ascii_of_byte.
Qed.

(** The text entries of the returned record are the decoded segments, in the
    order of [keys]. *)
Lemma build_result_segment buf last_delimiter segs indicator i k :
  length segs = 16%nat -> keys !! i = Some k ->
  exists seg, segs !! i = Some seg /\
    build_result buf last_delimiter
      (py_dict (zip keys (map latin1_decode segs))) indicator !! k =
    Some (latin1_decode seg).
Proof.
  intros Hlen Hk.
  destruct (lookup_lt_is_Some_2 segs i) as [seg Hseg].
  { apply lookup_lt_Some in Hk. rewrite keys_length in Hk. lia. }
  exists seg. split; [exact Hseg|].
  rewrite build_result_text by (eapply list_elem_of_lookup_2, Hk).
  apply (py_dict_zip_lookup keys _ i); [apply keys_NoDup|exact Hk|].
  rewrite list_lookup_fmap, Hseg. reflexivity.
Qed.

(** C10. In a returned record none of the 16 text fields holds the character
    of code point 255.  The buffer starts with 16 segments, each closed by a
    delimiter and free of the byte 255: the first lies before the first
    delimiter, the others between two consecutive delimiters.  The field of
    the [i]-th key is present and is the decoding of the [i]-th segment, so
    every one of its characters differs from the delimiter character. *)
Theorem C10_fields_hold_no_delimiter (buf : list byte) (r : gmap string string) :
  decode_secure_qr buf = Ok r ->
  exists (segs : list (list byte)) (rest : list byte),
    buf = join_segments segs ++ rest /\ length segs = 16%nat /\
    forall (i : nat) (k : string), keys !! i = Some k ->
      exists seg : list byte,
        segs !! i = Some seg /\ (delimiter ∉ seg) /\
        r !! k = Some (latin1_decode seg) /\
        delimiter_char ∉ list_ascii_of_string (latin1_decode seg).
Proof.
  intros Hok.
  destruct (decode_ok_inv buf r Hok)
    as (segs & rest & indicator & Hbuf & Hlen & Hfree & _ & _ & ->).
  exists segs, rest. split; [exact Hbuf|]. split; [exact Hlen|].
  intros i k Hi.
  destruct (build_result_segment buf
              (Z.of_nat (length (join_segments segs)) - 1) segs indicator i k
              Hlen Hi) as (seg & Hseg & Hlookup).
  assert (delimiter_free seg) as Hseg_free
    by (eapply Forall_lookup_1; eassumption).
  exists seg. split; [exact Hseg|]. split; [exact Hseg_free|].
  split; [exact Hlookup|]. by apply latin1_decode_delimiter_free.
Qed.

(** The scenario of the specification: its photo ends with a byte 255, its
    text fields hold none. *)
Lemma C10_fields_hold_no_delimiter_witness :
  exists (segs : list (list byte)) (rest : list byte),
    scenario = join_segments segs ++ rest /\ length segs = 16%nat /\
    forall (i : nat) (k : string), keys !! i = Some k ->
      exists seg : list byte,
        segs !! i = Some seg /\ (delimiter ∉ seg) /\
        record_of (decode_secure_qr scenario) !! k = Some (latin1_decode seg) /\
        delimiter_char ∉ list_ascii_of_string (latin1_decode seg).
Proof.
  apply (C10_fields_hold_no_delimiter scenario
           (record_of (decode_secure_qr scenario))).
  vm_compute. reflexivity.
Defined.

Example scenario_name :
  record_of (decode_secure_qr scenario) !! "name"%string =
    Some "Name One"%string.
Proof. vm_compute. reflexivity. Qed.

(** The only errors of the decoder are those of lines 42 and 67. *)
Lemma decode_error_cases buf e :
  decode_secure_qr buf = Err e -> e = MalformedContainer \/ e = InvalidIndicator.
Proof.
  destruct (Nat.lt_ge_cases (count_delimiters buf) 16) as [Hlt|Hge].
  { rewrite decode_not_enough by assumption. intros [= <-]. by left. }
  destruct (segmented_of_count buf Hge) as (segs & rest & Hbuf & Hlen & Hfree & _).
  rewrite Hbuf. rewrite decode_segmented by assumption.
  destruct (py_int _); [discriminate|]. intros [= <-]. by right.
Qed.

(** ** The contact fields *)

Lemma contact_fields_cases buf indicator :
  let ts := tail_start buf indicator in
  (indicator = 3 /\
   contact_fields buf indicator =
     (Some (contact_hex buf ts (ts + 32)),
      Some (contact_hex buf (ts + 32) (ts + 64)))) \/
  (indicator = 1 /\
   contact_fields buf indicator = (Some (contact_hex buf ts (ts + 32)), None)) \/
  (indicator = 2 /\
   contact_fields buf indicator = (None, Some (contact_hex buf ts (ts + 32)))) \/
  (indicator <> 1 /\ indicator <> 2 /\ indicator <> 3 /\
   contact_fields buf indicator = (None, None)).
Proof.
  unfold contact_fields.
  destruct (Z.eqb_spec indicator 3); [by left|].
  destruct (Z.eqb_spec indicator 1); [by right; left|].
  destruct (Z.eqb_spec indicator 2); [by right; right; left|].
  by right; right; right.
Qed.

Lemma is_Some_if_truthy (v : option string) :
  is_Some (if truthy v then v else None) <-> truthy v = true.
Proof.
  destruct v as [[|c s]|]; simpl; split; intros H;
    try discriminate; try (by eexists); by destruct H.
Qed.

Lemma record_contacts buf last_delimiter fields indicator :
  let r := build_result buf last_delimiter (py_dict (zip keys fields)) indicator in
  r !! "mobile"%string =
    (let mobile := (contact_fields buf indicator).1 in
     if truthy mobile then mobile else None) /\
  r !! "email"%string =
    (let email := (contact_fields buf indicator).2 in
     if truthy email then email else None).
Proof.
  split.
  - apply build_result_mobile, py_dict_zip_other, mobile_not_key.
  - apply build_result_email, py_dict_zip_other, email_not_key.
Qed.

Lemma mobile_truthy_iff buf indicator :
  let ts := tail_start buf indicator in
  truthy (contact_fields buf indicator).1 = true <->
  (indicator = 1 \/ indicator = 3) /\ py_slice buf ts (ts + 32) <> [].
Proof.
  intros ts.
  destruct (contact_fields_cases buf indicator)
    as [[-> Hcf]|[[-> Hcf]|[[-> Hcf]|(H1 & H2 & H3 & Hcf)]]];
    rewrite Hcf; cbn [fst]; fold ts.
  - rewrite truthy_contact_hex. intuition lia.
  - rewrite truthy_contact_hex. intuition lia.
  - simpl. split; [discriminate|]. intros [[?|?] _]; lia.
  - simpl. split; [discriminate|]. intros [[?|?] _]; lia.
Qed.

Lemma email_truthy_iff buf indicator :
  let ts := tail_start buf indicator in
  truthy (contact_fields buf indicator).2 = true <->
  (indicator = 2 /\ py_slice buf ts (ts + 32) <> []) \/
  (indicator = 3 /\ py_slice buf (ts + 32) (ts + 64) <> []).
Proof.
  intros ts.
  destruct (contact_fields_cases buf indicator)
    as [[-> Hcf]|[[-> Hcf]|[[-> Hcf]|(H1 & H2 & H3 & Hcf)]]];
    rewrite Hcf; cbn [snd]; fold ts.
  - rewrite truthy_contact_hex. intuition lia.
  - simpl. split; [discriminate|]. intros [[? _]|[? _]]; lia.
  - rewrite truthy_contact_hex. intuition lia.
  - simpl. split; [discriminate|]. intros [[? _]|[? _]]; lia.
Qed.

Lemma not_is_Some_None {B : Type} (o : option B) : ~ is_Some o -> o = None.
Proof. destruct o; [|reflexivity]. intros Hn. exfalso. apply Hn. by eexists. Qed.

Lemma if_truthy_not_empty (v : option string) :
  (if truthy v then v else None) <> Some EmptyString.
Proof. destruct v as [[|c s]|]; simpl; discriminate. Qed.

(** C8. A contact key is in the record exactly when the indicator declares
    the field and the slice it is read from is not empty; so with an
    indicator of 1, 2 or 3 and an empty slice (a buffer too short for its
    tail) the key is absent, and a key that is present never holds the empty
    text. *)
Theorem C8_empty_contact_is_absent
    (buf : list byte) (r : gmap string string) (indicator : Z) :
  decode_secure_qr buf = Ok r ->
  py_int (latin1_decode (first_segment buf)) = Some indicator ->
  let ts := tail_start buf indicator in
  (is_Some (r !! "mobile"%string) <->
     (indicator = 1 \/ indicator = 3) /\ py_slice buf ts (ts + 32) <> []) /\
  (is_Some (r !! "email"%string) <->
     (indicator = 2 /\ py_slice buf ts (ts + 32) <> []) \/
     (indicator = 3 /\ py_slice buf (ts + 32) (ts + 64) <> [])) /\
  ((indicator = 1 \/ indicator = 3) -> py_slice buf ts (ts + 32) = [] ->
     r !! "mobile"%string = None) /\
  (indicator = 2 -> py_slice buf ts (ts + 32) = [] ->
     r !! "email"%string = None) /\
  (indicator = 3 -> py_slice buf (ts + 32) (ts + 64) = [] ->
     r !! "email"%string = None) /\
  r !! "mobile"%string <> Some EmptyString /\
  r !! "email"%string <> Some EmptyString.
Proof.
  intros Hok Hint ts.
  destruct (decode_ok_inv buf r Hok)
    as (segs & rest & indicator' & _ & _ & _ & _ & Hint' & ->).
  assert (indicator' = indicator) as -> by congruence.
  destruct (record_contacts buf (Z.of_nat (length (join_segments segs)) - 1)
              (map latin1_decode segs) indicator) as [Hm He].
  cbv zeta in Hm, He.
  assert (is_Some (build_result buf (Z.of_nat (length (join_segments segs)) - 1)
                     (py_dict (zip keys (map latin1_decode segs))) indicator
                   !! "mobile"%string) <->
          (indicator = 1 \/ indicator = 3) /\ py_slice buf ts (ts + 32) <> [])
    as Hmobile.
  { rewrite Hm, is_Some_if_truthy. apply mobile_truthy_iff. }
  assert (is_Some (build_result buf (Z.of_nat (length (join_segments segs)) - 1)
                     (py_dict (zip keys (map latin1_decode segs))) indicator
                   !! "email"%string) <->
          (indicator = 2 /\ py_slice buf ts (ts + 32) <> []) \/
          (indicator = 3 /\ py_slice buf (ts + 32) (ts + 64) <> []))
    as Hemail.
  { rewrite He, is_Some_if_truthy. apply email_truthy_iff. }
  split; [exact Hmobile|]. split; [exact Hemail|].
  split; [|split; [|split; [|split]]].
  - intros _ Hempty. apply not_is_Some_None. rewrite Hmobile. tauto.
  - intros -> Hempty. apply not_is_Some_None. rewrite Hemail.
    intros [[_ Hne]|[H3 _]]; [contradiction|lia].
  - intros -> Hempty. apply not_is_Some_None. rewrite Hemail.
    intros [[H2 _]|[_ Hne]]; [lia|contradiction].
  - rewrite Hm. apply if_truthy_not_empty.
  - rewrite He. apply if_truthy_not_empty.
Qed.

(** The indicator 1 on a buffer of 17 bytes: no contact key. *)
Lemma C8_empty_contact_is_absent_witness :
  record_of (decode_secure_qr (x31 :: repeat xff 16)) !! "mobile"%string = None.
Proof.
  assert (decode_secure_qr (x31 :: repeat xff 16) =
          Ok (record_of (decode_secure_qr (x31 :: repeat xff 16)))) as Hok
    by (vm_compute; reflexivity).
  assert (py_int (latin1_decode (first_segment (x31 :: repeat xff 16))) = Some 1)
    as Hint by reflexivity.
  destruct (C8_empty_contact_is_absent _ _ _ Hok Hint) as (_ & _ & Habsent & _).
  apply Habsent; [left|]; reflexivity.
Defined.

(** ** The tail of a buffer that is long enough *)

Lemma tail_extra_cases indicator :
  (indicator = 3 /\ tail_extra indicator = 64) \/
  ((indicator = 1 \/ indicator = 2) /\ tail_extra indicator = 32) \/
  (indicator <> 1 /\ indicator <> 2 /\ indicator <> 3 /\
   tail_extra indicator = 0).
Proof.
  unfold tail_extra.
  destruct (Z.eqb_spec indicator 3); [by left|].
  destruct (Z.eqb_spec indicator 1); [right; left; auto|].
  destruct (Z.eqb_spec indicator 2); [right; left; auto|].
  right; right. auto.
Qed.

Lemma tail_start_eq buf indicator :
  tail_start buf indicator =
    Z.of_nat (length buf) - (256 + tail_extra indicator).
Proof. reflexivity. Qed.

Lemma py_slice_sub_bytes (buf : list byte) (a b : Z) :
  0 <= a -> a <= b -> b <= Z.of_nat (length buf) ->
  py_slice buf a b = sub_bytes buf (Z.to_nat a) (Z.to_nat b).
Proof. apply py_slice_inside. Qed.

Lemma sub_bytes_length buf (a b : nat) :
  (a <= b)%nat -> (b <= length buf)%nat -> length (sub_bytes buf a b) = (b - a)%nat.
Proof.
  intros Hab Hb. unfold sub_bytes. rewrite length_take, length_drop. lia.
Qed.

Lemma renders_block_intro buf (a : nat) :
  (a + 32 <= length buf)%nat ->
  renders_block (Some (contact_hex buf (Z.of_nat a) (Z.of_nat a + 32)))
    (sub_bytes buf a (a + 32)).
Proof.
  intros Ha. unfold renders_block, contact_hex.
  rewrite py_slice_sub_bytes by lia.
  replace (Z.to_nat (Z.of_nat a + 32)) with (a + 32)%nat by lia.
  rewrite Nat2Z.id.
  assert (length (sub_bytes buf a (a + 32)) = 32%nat) as Hlen
    by (rewrite sub_bytes_length; lia).
  repeat split; [exact Hlen| |].
  - rewrite py_hex_length, length_rev, Hlen. reflexivity.
  - apply Forall_forall. intros c. apply py_hex_chars.
Qed.

Ltac solve_presence :=
  split; intros; first [reflexivity | discriminate | lia].

Lemma renders_block_truthy v block : renders_block v block -> truthy v = true.
Proof.
  intros (_ & -> & Hlen & _).
  destruct (py_hex (rev block)); [discriminate|reflexivity].
Qed.

(** C3. In the record of a buffer that is at least as long as its declared
    tail, the mobile key is present exactly for the indicators 1 and 3 and
    the email key exactly for 2 and 3.  The mobile value is the lowercase
    hexadecimal text, 64 characters long, of the reversed 32 bytes at
    [tail_start]; the email value is that of the 32 bytes at [tail_start + 32]
    when the mobile is present too (indicator 3) and at [tail_start]
    otherwise (indicator 2). *)
Theorem C3_contact_fields
    (buf : list byte) (r : gmap string string) (indicator : Z) :
  decode_secure_qr buf = Ok r ->
  py_int (latin1_decode (first_segment buf)) = Some indicator ->
  long_enough buf indicator ->
  let ts := Z.to_nat (tail_start buf indicator) in
  (is_Some (r !! "mobile"%string) <-> indicator = 1 \/ indicator = 3) /\
  (is_Some (r !! "email"%string) <-> indicator = 2 \/ indicator = 3) /\
  (indicator = 1 \/ indicator = 3 ->
     renders_block (r !! "mobile"%string) (sub_bytes buf ts (ts + 32))) /\
  (indicator = 3 ->
     renders_block (r !! "email"%string) (sub_bytes buf (ts + 32) (ts + 64))) /\
  (indicator = 2 ->
     renders_block (r !! "email"%string) (sub_bytes buf ts (ts + 32))).
Proof.
  intros Hok Hint Hlong ts. unfold long_enough in Hlong.
  destruct (decode_ok_inv buf r Hok)
    as (segs & rest & indicator' & _ & _ & _ & _ & Hint' & ->).
  assert (indicator' = indicator) as -> by congruence.
  destruct (record_contacts buf (Z.of_nat (length (join_segments segs)) - 1)
              (map latin1_decode segs) indicator) as [Hm He].
  cbv zeta in Hm, He. rewrite Hm, He. clear Hm He Hok.
  pose proof (tail_start_eq buf indicator) as Hts.
  assert (tail_start buf indicator = Z.of_nat ts) as Hnat.
  { unfold ts. symmetry. apply Z2Nat.id, Hlong. }
  clearbody ts. rewrite !is_Some_if_truthy.
  destruct (contact_fields_cases buf indicator)
    as [[-> Hcf]|[[-> Hcf]|[[-> Hcf]|(H1 & H2 & H3 & Hcf)]]];
    rewrite Hcf; cbn [fst snd]; rewrite ?Hnat.
  - (* indicator 3: both blocks *)
    change (tail_extra 3) with 64 in Hts.
    assert (ts + 32 <= length buf)%nat as Hb1 by lia.
    assert (ts + 32 + 32 <= length buf)%nat as Hb2 by lia.
    pose proof (renders_block_intro buf ts Hb1) as Hmobile.
    pose proof (renders_block_intro buf (ts + 32) Hb2) as Hemail.
    replace (Z.of_nat (ts + 32)%nat) with (Z.of_nat ts + 32) in Hemail by lia.
    replace (Z.of_nat ts + 32 + 32) with (Z.of_nat ts + 64) in Hemail by lia.
    replace (ts + 32 + 32)%nat with (ts + 64)%nat in Hemail by lia.
    rewrite (renders_block_truthy _ _ Hmobile), (renders_block_truthy _ _ Hemail).
    cbv iota. split; [solve_presence|]. split; [solve_presence|].
    split; [intros _; exact Hmobile|]. split; [intros _; exact Hemail|].
    intros Habs. lia.
  - (* indicator 1: the mobile block *)
    change (tail_extra 1) with 32 in Hts.
    assert (ts + 32 <= length buf)%nat as Hb1 by lia.
    pose proof (renders_block_intro buf ts Hb1) as Hmobile.
    rewrite (renders_block_truthy _ _ Hmobile). simpl truthy. cbv iota.
    split; [solve_presence|]. split; [solve_presence|].
    split; [intros _; exact Hmobile|]. split; intros Habs; lia.
  - (* indicator 2: the email block *)
    change (tail_extra 2) with 32 in Hts.
    assert (ts + 32 <= length buf)%nat as Hb1 by lia.
    pose proof (renders_block_intro buf ts Hb1) as Hemail.
    rewrite (renders_block_truthy _ _ Hemail). simpl truthy. cbv iota.
    split; [solve_presence|]. split; [solve_presence|].
    split; [intros Habs; lia|]. split; [intros Habs; lia|].
    intros _. exact Hemail.
  - simpl truthy. split; [solve_presence|]. split; [solve_presence|].
    split; [intros Habs; lia|]. split; intros Habs; lia.
Qed.

(** The container with both blocks: the mobile value renders the block that
    was written at [tail_start]. *)
Lemma C3_contact_fields_witness :
  renders_block
    (record_of (decode_secure_qr contact_container) !! "mobile"%string)
    (sub_bytes contact_container
       (Z.to_nat (tail_start contact_container 3))
       (Z.to_nat (tail_start contact_container 3) + 32)).
Proof.
  assert (decode_secure_qr contact_container =
          Ok (record_of (decode_secure_qr contact_container))) as Hok
    by (vm_compute; reflexivity).
  assert (py_int (latin1_decode (first_segment contact_container)) = Some 3)
    as Hint by reflexivity.
  assert (long_enough contact_container 3) as Hlong
    by (vm_compute; discriminate).
  destruct (C3_contact_fields _ _ _ Hok Hint Hlong) as (_ & _ & Hmobile & _).
  apply Hmobile. right. reflexivity.
Defined.

Example contact_container_mobile :
  record_of (decode_secure_qr contact_container) !! "mobile"%string =
    Some "0111111111111111111111111111111111111111111111111111111111111111"%string.
Proof. vm_compute. reflexivity. Qed.

Example contact_container_email :
  record_of (decode_secure_qr contact_container) !! "email"%string =
    Some "0222222222222222222222222222222222222222222222222222222222222222"%string.
Proof. vm_compute. reflexivity. Qed.

(** C5. In the record of a buffer that is at least as long as its declared
    tail, the photo is the base64 text of the bytes from the offset after the
    16th delimiter up to, and without, [tail_start], where [tail_start] is the
    length of the buffer minus 256 and the extra 0, 32 or 64 bytes of the
    indicator.  The text is made of the standard alphabet and the padding
    character only, so it holds no line break. *)
Theorem C5_photo (buf : list byte) (r : gmap string string) (indicator : Z) :
  decode_secure_qr buf = Ok r ->
  py_int (latin1_decode (first_segment buf)) = Some indicator ->
  long_enough buf indicator ->
  exists (last_delimiter extra : Z) (photo : string),
    sentinel_offsets buf !! 15%nat = Some last_delimiter /\
    extra = (if decide (indicator = 3) then 64
             else if decide (indicator = 1 \/ indicator = 2) then 32 else 0) /\
    tail_start buf indicator = Z.of_nat (length buf) - (256 + extra) /\
    r !! "photo"%string = Some photo /\
    photo = b64encode
              (sub_bytes buf (Z.to_nat last_delimiter + 1)
                 (Z.to_nat (tail_start buf indicator))) /\
    Forall b64_text_char (list_ascii_of_string photo) /\
    "010"%char ∉ list_ascii_of_string photo.
Proof.
  intros Hok Hint Hlong. unfold long_enough in Hlong.
  destruct (decode_ok_inv buf r Hok)
    as (segs & rest & indicator' & Hbuf & Hlen & Hfree & _ & Hint' & ->).
  assert (indicator' = indicator) as -> by congruence.
  exists (Z.of_nat (length (join_segments segs)) - 1), (tail_extra indicator).
  eexists. split.
  { rewrite Hbuf at 1. by apply sixteenth_offset. }
  split.
  { unfold tail_extra.
    destruct (Z.eqb_spec indicator 3); [by rewrite decide_True|].
    rewrite decide_False by assumption.
    destruct (Z.eqb_spec indicator 1); [by rewrite decide_True by auto|].
    destruct (Z.eqb_spec indicator 2); [by rewrite decide_True by auto|].
    rewrite decide_False by tauto. reflexivity. }
  split; [reflexivity|]. split; [apply build_result_photo|].
  assert (0 < length (join_segments segs))%nat as Hpos
    by (apply join_segments_nonempty; intros ->; discriminate).
  assert (length buf = length (join_segments segs) + length rest)%nat as Hlenbuf
    by (rewrite Hbuf at 1; apply length_app).
  pose proof (tail_start_eq buf indicator) as Hts.
  assert (0 <= tail_extra indicator) as Hextra
    by (destruct (tail_extra_cases indicator) as [[_ ->]|[[_ ->]|(_ & _ & _ & ->)]]; lia).
  split.
  { f_equal.
    destruct (Z.le_gt_cases (Z.of_nat (length (join_segments segs)))
                (tail_start buf indicator)) as [Hle|Hgt].
    - rewrite py_slice_sub_bytes by lia. f_equal. lia.
    - rewrite py_slice_backwards by lia. unfold sub_bytes.
      replace (_ - _)%nat with 0%nat by lia. reflexivity. }
  split; [apply b64encode_chars|].
  intros Hin. apply newline_not_b64.
  eapply Forall_forall; [apply b64encode_chars|exact Hin].
Qed.

(** The scenario of the specification: offsets 41 to 50 hold the photo. *)
Lemma C5_photo_witness :
  exists (last_delimiter extra : Z) (photo : string),
    sentinel_offsets scenario !! 15%nat = Some last_delimiter /\
    extra = (if decide (0 = 3) then 64
             else if decide (0 = 1 \/ 0 = 2) then 32 else 0) /\
    tail_start scenario 0 = Z.of_nat (length scenario) - (256 + extra) /\
    record_of (decode_secure_qr scenario) !! "photo"%string = Some photo /\
    photo = b64encode
              (sub_bytes scenario (Z.to_nat last_delimiter + 1)
                 (Z.to_nat (tail_start scenario 0))) /\
    Forall b64_text_char (list_ascii_of_string photo) /\
    "010"%char ∉ list_ascii_of_string photo.
Proof.
  apply (C5_photo scenario (record_of (decode_secure_qr scenario)) 0).
  - vm_compute. reflexivity.
  - reflexivity.
  - vm_compute. discriminate.
Defined.

Example scenario_photo_text :
  record_of (decode_secure_qr scenario) !! "photo"%string =
    Some (b64encode scenario_photo) /\
  b64encode scenario_photo = "iVBORw0KGgoA/w=="%string /\
  record_of (decode_secure_qr scenario) !! "indicator"%string = Some "0"%string /\
  record_of (decode_secure_qr scenario) !! "mobile"%string = None /\
  record_of (decode_secure_qr scenario) !! "email"%string = None.
Proof. vm_compute. repeat split; reflexivity. Qed.

(** ** Buffers shorter than their declared tail *)

Lemma decode_never_truncated buf : decode_secure_qr buf <> Err TruncatedContainer.
Proof.
  destruct (Nat.lt_ge_cases (count_delimiters buf) 16) as [Hlt|Hge].
  { rewrite decode_not_enough by assumption. discriminate. }
  destruct (segmented_of_count buf Hge) as (segs & rest & Hbuf & Hlen & Hfree & _).
  rewrite Hbuf. rewrite decode_segmented by assumption.
  destruct (py_int _); discriminate.
Qed.

(** C1, as the specification has it, fails: the buffer of 17 bytes declares a
    tail of 256 bytes, so [tail_start] is -239, below the offset 17 that
    follows the 16th delimiter; the decoder does not fail, it returns a
    record with an empty photo. *)
Lemma C1_truncated_container_is_decoded :
  sentinel_offsets truncated_container !! 15%nat = Some 16 /\
  py_int (latin1_decode (first_segment truncated_container)) = Some 0 /\
  tail_start truncated_container 0 = -239 /\
  tail_start truncated_container 0 <= 16 + 1 /\
  decode_secure_qr truncated_container <> Err TruncatedContainer /\
  decode_secure_qr truncated_container =
    Ok (record_of (decode_secure_qr truncated_container)) /\
  record_of (decode_secure_qr truncated_container) !! "photo"%string =
    Some EmptyString.
Proof.
  split; [reflexivity|]. split; [reflexivity|]. split; [reflexivity|].
  split; [vm_compute; discriminate|]. split; [apply decode_never_truncated|].
  split; vm_compute; reflexivity.
Qed.

(** C1, amended.  A buffer with 16 delimiters and an indicator that reads as
    an integer, whose declared tail exceeds the space after the 16th
    delimiter ([tail_start <= last_delimiter + 1]), is decoded without any
    failure: the source has no bounds check.  The photo of the returned
    record is the base64 text of the slice
    [decompressed[last_delimiter + 1 : tail_start]] as Python clamps it, and
    it is the empty text when [tail_start] is not negative. *)
Theorem C1_short_buffer_is_decoded
    (buf : list byte) (indicator last_delimiter : Z) :
  sentinel_offsets buf !! 15%nat = Some last_delimiter ->
  py_int (latin1_decode (first_segment buf)) = Some indicator ->
  tail_start buf indicator <= last_delimiter + 1 ->
  exists r : gmap string string,
    decode_secure_qr buf = Ok r /\
    decode_secure_qr buf <> Err TruncatedContainer /\
    r !! "photo"%string =
      Some (b64encode
              (py_slice buf (last_delimiter + 1) (tail_start buf indicator))) /\
    (0 <= tail_start buf indicator -> r !! "photo"%string = Some EmptyString).
Proof.
  intros Hlast Hint Hshort.
  assert (16 <= count_delimiters buf)%nat as Hcount.
  { apply lookup_lt_Some in Hlast. unfold sentinel_offsets in Hlast.
    rewrite sentinel_offsets_from_length in Hlast. lia. }
  destruct (decode_enough buf indicator Hcount Hint)
    as (segs & rest & Hbuf & Hlen & Hfree & Hdec).
  assert (last_delimiter = Z.of_nat (length (join_segments segs)) - 1) as ->.
  { rewrite Hbuf in Hlast at 1. rewrite sixteenth_offset in Hlast by assumption.
    congruence. }
  eexists. split; [exact Hdec|]. split; [apply decode_never_truncated|].
  split; [apply build_result_photo|].
  intros Hpos. rewrite build_result_photo.
  rewrite py_slice_backwards by lia. reflexivity.
Qed.

Lemma C1_short_buffer_is_decoded_witness :
  exists r : gmap string string,
    decode_secure_qr truncated_container = Ok r /\
    decode_secure_qr truncated_container <> Err TruncatedContainer /\
    r !! "photo"%string =
      Some (b64encode
              (py_slice truncated_container (16 + 1)
                 (tail_start truncated_container 0))) /\
    (0 <= tail_start truncated_container 0 ->
     r !! "photo"%string = Some EmptyString).
Proof.
  apply (C1_short_buffer_is_decoded truncated_container 0 16).
  - reflexivity.
  - reflexivity.
  - vm_compute. discriminate.
Defined.

(** With a negative [tail_start] the slices count from the end of the buffer:
    the photo and the mobile block are both cut out of the 200 bytes that
    follow the delimiters, and they overlap. *)
Example overlapping_container_slices :
  tail_start overlapping_container 1 = -71 /\
  py_slice overlapping_container 17 (-71) = repeat x41 129 /\
  py_slice overlapping_container (-71) (-71 + 32) = repeat x41 32 /\
  record_of (decode_secure_qr overlapping_container) !! "photo"%string =
    Some (b64encode (repeat x41 129)) /\
  record_of (decode_secure_qr overlapping_container) !! "mobile"%string =
    Some (py_hex (repeat x41 32)).
Proof. vm_compute. repeat split; reflexivity. Qed.

(** ** Synthetic containers *)

Lemma py_slice_at {B : Type} (s pre mid post : list B) (a b : Z) :
  s = pre ++ mid ++ post ->
  a = Z.of_nat (length pre) -> b = a + Z.of_nat (length mid) ->
  py_slice s a b = mid.
Proof. intros -> -> ->. apply py_slice_middle. Qed.

Lemma declared_contacts_cases indicator mobile email :
  (indicator = 3 /\ declared_contacts indicator mobile email = mobile ++ email) \/
  (indicator = 1 /\ declared_contacts indicator mobile email = mobile) \/
  (indicator = 2 /\ declared_contacts indicator mobile email = email) \/
  (indicator <> 1 /\ indicator <> 2 /\ indicator <> 3 /\
   declared_contacts indicator mobile email = []).
Proof.
  unfold declared_contacts.
  destruct (decide (indicator = 3)); [by left|].
  destruct (decide (indicator = 1)); [by right; left|].
  destruct (decide (indicator = 2)); [by right; right; left|].
  by right; right; right.
Qed.

Lemma declared_contacts_length indicator mobile email :
  length mobile = 32%nat -> length email = 32%nat ->
  Z.of_nat (length (declared_contacts indicator mobile email)) =
    tail_extra indicator.
Proof.
  intros Hm He.
  destruct (declared_contacts_cases indicator mobile email)
    as [[-> ->]|[[-> ->]|[[-> ->]|(H1 & H2 & H3 & ->)]]];
    rewrite ?length_app, ?Hm, ?He; try reflexivity.
  destruct (tail_extra_cases indicator) as [[? _]|[[? _]|(_ & _ & _ & ->)]];
    [lia|lia|reflexivity].
Qed.

Lemma container_tail_start segs photo mobile email signature indicator :
  length mobile = 32%nat -> length email = 32%nat ->
  length signature = 256%nat ->
  tail_start
    (container segs photo (declared_contacts indicator mobile email) signature)
    indicator =
  Z.of_nat (length (join_segments segs)) + Z.of_nat (length photo).
Proof.
  intros Hm He Hs.
  pose proof (declared_contacts_length indicator mobile email Hm He) as Hc.
  unfold tail_start, tail_length, container. rewrite !length_app. lia.
Qed.

Lemma contact_hex_at buf pre block post (a b : Z) :
  buf = pre ++ block ++ post ->
  a = Z.of_nat (length pre) -> b = a + Z.of_nat (length block) ->
  contact_hex buf a b = py_hex (rev block).
Proof.
  intros Hbuf Ha Hb. unfold contact_hex.
  rewrite (py_slice_at buf pre block post a b Hbuf Ha Hb). reflexivity.
Qed.

Lemma truthy_block block :
  length block = 32%nat -> truthy (Some (py_hex (rev block))) = true.
Proof.
  intros Hlen. apply truthy_py_hex. intros Hrev.
  apply (f_equal (@length byte)) in Hrev. rewrite length_rev, Hlen in Hrev.
  discriminate.
Qed.

(** C2, as the specification has it, fails: with the tail laid out as the
    data model of the specification describes it, the signature and then the
    contact block, the decoder reads the mobile value from the first 32 bytes
    of the signature, and the block is not reproduced. *)
Lemma C2_signature_first_is_not_reproduced :
  py_int (latin1_decode [x31]) = Some 1 /\
  decode_secure_qr
    (container_signature_first ([x31] :: repeat [] 15) [xde; xad; xbe; xef]
       (declared_contacts 1 mobile_block email_block) (repeat x00 256)) =
    Ok (record_of
          (decode_secure_qr
             (container_signature_first ([x31] :: repeat [] 15)
                [xde; xad; xbe; xef]
                (declared_contacts 1 mobile_block email_block)
                (repeat x00 256)))) /\
  record_of
    (decode_secure_qr
       (container_signature_first ([x31] :: repeat [] 15) [xde; xad; xbe; xef]
          (declared_contacts 1 mobile_block email_block) (repeat x00 256)))
    !! "mobile"%string = Some (py_hex (repeat x00 32)) /\
  record_of
    (decode_secure_qr
       (container_signature_first ([x31] :: repeat [] 15) [xde; xad; xbe; xef]
          (declared_contacts 1 mobile_block email_block) (repeat x00 256)))
    !! "mobile"%string <> Some (py_hex (rev mobile_block)).
Proof.
  split; [reflexivity|]. split; [vm_compute; reflexivity|].
  split; [vm_compute; reflexivity|]. vm_compute. discriminate.
Qed.

(** C2, amended.  A buffer built from 16 delimiter-free segments, each closed
    by a delimiter and the first one reading as the integer [indicator], then
    a photo, then the contact blocks of 32 bytes that the indicator declares
    (the mobile block before the email block), then a signature of 256 bytes
    at the very end, is decoded to a record that reproduces every input: each
    text field is the decoding of its segment, the photo is the base64 text
    of the photo bytes, and each declared contact field is the hexadecimal
    text of its reversed block. *)
Theorem C2_roundtrip
    (segs : list (list byte)) (photo mobile email signature : list byte)
    (indicator : Z) :
  length segs = 16%nat -> Forall delimiter_free segs ->
  py_int (latin1_decode (hd [] segs)) = Some indicator ->
  length mobile = 32%nat -> length email = 32%nat ->
  length signature = 256%nat ->
  exists r : gmap string string,
    decode_secure_qr
      (container segs photo (declared_contacts indicator mobile email)
         signature) = Ok r /\
    (forall (i : nat) (k : string) (seg : list byte),
       keys !! i = Some k -> segs !! i = Some seg ->
       r !! k = Some (latin1_decode seg)) /\
    r !! "photo"%string = Some (b64encode photo) /\
    r !! "mobile"%string =
      (if decide (indicator = 1 \/ indicator = 3)
       then Some (py_hex (rev mobile)) else None) /\
    r !! "email"%string =
      (if decide (indicator = 2 \/ indicator = 3)
       then Some (py_hex (rev email)) else None).
Proof.
  intros Hlen Hfree Hint Hm He Hs.
  pose proof (container_tail_start segs photo mobile email signature indicator
                Hm He Hs) as Hts.
  pose proof (decode_segmented segs
                (photo ++ declared_contacts indicator mobile email ++ signature)
                Hfree Hlen) as Hdec.
  rewrite Hint in Hdec. fold (container segs photo
    (declared_contacts indicator mobile email) signature) in Hdec.
  set (buf := container segs photo
                (declared_contacts indicator mobile email) signature) in *.
  eexists. split; [exact Hdec|]. split; [|split].
  - intros i k seg Hk Hseg.
    destruct (build_result_segment buf
                (Z.of_nat (length (join_segments segs)) - 1) segs indicator
                i k Hlen Hk) as (seg' & Hseg' & Hlookup).
    rewrite Hlookup. congruence.
  - rewrite build_result_photo. do 2 f_equal.
    apply (py_slice_at buf (join_segments segs) photo
             (declared_contacts indicator mobile email ++ signature));
      [reflexivity|lia|rewrite Hts; lia].
  - destruct (record_contacts buf (Z.of_nat (length (join_segments segs)) - 1)
                (map latin1_decode segs) indicator) as [Hmobile Hemail].
    cbv zeta in Hmobile, Hemail. rewrite Hmobile, Hemail.
    clear Hmobile Hemail Hdec.
    assert (Z.of_nat (length (join_segments segs)) + Z.of_nat (length photo) =
            Z.of_nat (length (join_segments segs ++ photo))) as Hpre
      by (rewrite length_app; lia).
    destruct (contact_fields_cases buf indicator)
      as [[-> Hcf]|[[-> Hcf]|[[-> Hcf]|(H1 & H2 & H3 & Hcf)]]];
      rewrite Hcf; cbn [fst snd]; rewrite ?Hts, ?Hpre.
    + (* indicator 3 *)
      rewrite (contact_hex_at buf (join_segments segs ++ photo) mobile
                 (email ++ signature));
        [|subst buf; unfold container, declared_contacts; simpl;
          by rewrite <- !app_assoc|reflexivity|lia].
      rewrite (contact_hex_at buf ((join_segments segs ++ photo) ++ mobile)
                 email signature);
        [|subst buf; unfold container, declared_contacts; simpl;
          by rewrite <- !app_assoc|rewrite !length_app; lia|lia].
      rewrite !truthy_block by assumption.
      rewrite !decide_True by auto. split; reflexivity.
    + (* indicator 1 *)
      rewrite (contact_hex_at buf (join_segments segs ++ photo) mobile signature);
        [|subst buf; unfold container, declared_contacts; simpl;
          by rewrite <- !app_assoc|reflexivity|lia].
      rewrite truthy_block by assumption.
      rewrite decide_True by auto. rewrite decide_False by lia.
      split; reflexivity.
    + (* indicator 2 *)
      rewrite (contact_hex_at buf (join_segments segs ++ photo) email signature);
        [|subst buf; unfold container, declared_contacts; simpl;
          by rewrite <- !app_assoc|reflexivity|lia].
      rewrite truthy_block by assumption.
      rewrite decide_False by lia. rewrite decide_True by auto.
      split; reflexivity.
    + rewrite !decide_False by lia. split; reflexivity.
Qed.

(** The container with both contact blocks: every part comes back. *)
Lemma C2_roundtrip_witness :
  exists r : gmap string string,
    decode_secure_qr
      (container ([x33] :: repeat [] 15) [xde; xad; xbe; xef]
         (declared_contacts 3 mobile_block email_block) (repeat x00 256)) =
      Ok r /\
    (forall (i : nat) (k : string) (seg : list byte),
       keys !! i = Some k -> ([x33] :: repeat [] 15) !! i = Some seg ->
       r !! k = Some (latin1_decode seg)) /\
    r !! "photo"%string = Some (b64encode [xde; xad; xbe; xef]) /\
    r !! "mobile"%string =
      (if decide (3 = 1 \/ 3 = 3)
       then Some (py_hex (rev mobile_block)) else None) /\
    r !! "email"%string =
      (if decide (3 = 2 \/ 3 = 3)
       then Some (py_hex (rev email_block)) else None).
Proof.
  apply (C2_roundtrip ([x33] :: repeat [] 15) [xde; xad; xbe; xef]
           mobile_block email_block (repeat x00 256) 3).
  - reflexivity.
  - compute_done.
  - reflexivity.
  - reflexivity.
  - reflexivity.
  - reflexivity.
Defined.

(** ** Runs of the decoder *)

Section Runs.
Variable decompressed : list byte.

Lemma step_deterministic s s1 s2 :
  step decompressed s s1 -> step decompressed s s2 -> s1 = s2.
Proof.
  intros H1 H2.
  inversion H1; subst; inversion H2; subst;
    try reflexivity; try contradiction; try congruence; try lia.
Qed.

Lemma Done_is_final r s : ~ step decompressed (Done r) s.
Proof. intros H. inversion H. Qed.

(** Two runs from the same state that both reach a result reach the same
    one. *)
Lemma rtc_step_unique s r1 r2 :
  rtc (step decompressed) s (Done r1) ->
  rtc (step decompressed) s (Done r2) -> r1 = r2.
Proof.
  intros Hrun1. remember (Done r1) as final eqn:Hfinal.
  revert r1 Hfinal.
  induction Hrun1 as [s|s s' final Hstep Hrun1 IH]; intros r1 -> Hrun2.
  - inversion Hrun2 as [|? ? ? Hstep2]; subst; [congruence|].
    exfalso. eapply Done_is_final, Hstep2.
  - inversion Hrun2 as [|? s'' ? Hstep2 Hrun2']; subst.
    + exfalso. eapply Done_is_final, Hstep.
    + rewrite (step_deterministic _ _ _ Hstep Hstep2) in *.
      eapply IH; [reflexivity|exact Hrun2'].
Qed.

(** The scan of lines 36-40 runs to the list that [scan_delimiters] computes. *)
Lemma scanning_run bs : forall i ps,
  rtc (step decompressed) (Scanning i bs ps) (Scanned (scan_delimiters bs i ps)).
Proof.
  induction bs as [|b bs IH]; intros i ps.
  - apply rtc_once. constructor.
  - simpl. case_delimiter b.
    + subst b. destruct (Nat.eqb_spec (length (ps ++ [i])) 16) as [H16|H16].
      * apply rtc_once. by constructor.
      * eapply rtc_l; [by apply step_scan_found|]. apply IH.
    + eapply rtc_l; [by apply step_scan_other|]. apply IH.
Qed.

(** The loop of lines 46-52 runs to the fields that [extract_fields] computes. *)
Lemma splitting_run todo : forall start fields ps,
  rtc (step decompressed) (Splitting start todo fields ps)
    (Mapped (fields ++ extract_fields decompressed start todo) ps).
Proof.
  induction todo as [|pos todo IH]; intros start fields ps.
  - simpl. rewrite app_nil_r. apply rtc_once. constructor.
  - simpl. eapply rtc_l; [constructor|].
    specialize (IH (pos + 1)
                  (fields ++ [latin1_decode (py_slice decompressed start pos)]) ps).
    rewrite <- app_assoc in IH. exact IH.
Qed.

(** The machine runs to the result of the function. *)
Lemma runs_decode : runs decompressed (decode_secure_qr decompressed).
Proof.
  unfold runs, decode_secure_qr.
  eapply rtc_trans; [apply scanning_run|].
  set (ps := scan_delimiters decompressed 0 []).
  destruct (Nat.ltb_spec (length ps) 16) as [Hlt|Hge].
  { apply rtc_once. by constructor. }
  eapply rtc_l; [by apply step_enough|].
  eapply rtc_trans; [apply splitting_run|]. cbn [app].
  set (fields := extract_fields decompressed 0 ps).
  apply rtc_once.
  destruct (Nat.eqb_spec (length fields) (length keys)) as [Heq|Hne]; cbn [negb].
  - destruct (py_dict (zip keys fields) !! "indicator"%string ≫= py_int)
      as [indicator|] eqn:Hind.
    + destruct (last ps) as [last_delimiter|] eqn:Hlast.
      * eapply step_return; eassumption.
      * eapply step_no_last; eassumption.
    + by apply step_invalid_indicator.
  - by apply step_count_mismatch.
Qed.
End Runs.

(** Every buffer has a complete run, which ends in the result of the
    function, and two complete runs end in the same result. *)
Lemma runs_unique_result (buf : list byte) :
  runs buf (decode_secure_qr buf) /\
  (forall r1 r2 : result, runs buf r1 -> runs buf r2 -> r1 = r2) /\
  (forall r : result, runs buf r -> r = decode_secure_qr buf).
Proof.
  split; [apply runs_decode|]. split.
  - intros r1 r2. apply rtc_step_unique.
  - intros r Hr. eapply rtc_step_unique; [exact Hr|apply runs_decode].
Qed.

(** * Further properties of the decoder *)

(** ** Outcomes *)

(** X1. The outcome of the decoder is settled by two facts about the buffer:
    with fewer than 16 delimiters it raises the error of line 42; with 16
    delimiters and a first segment that [int] refuses, the error of line 67;
    in every other case it returns a record.  So the other raise sites are
    dead: the decoding of line 48 never fails, the count of line 59 never
    differs, and [delimiter_positions[-1]] of line 78 never misses. *)
Theorem X1_outcomes (buf : list byte) :
  (((count_delimiters buf < 16)%nat /\
    decode_secure_qr buf = Err MalformedContainer) \/
   ((16 <= count_delimiters buf)%nat /\
    py_int (latin1_decode (first_segment buf)) = None /\
    decode_secure_qr buf = Err InvalidIndicator) \/
   ((16 <= count_delimiters buf)%nat /\
    exists (indicator : Z) (r : gmap string string),
      py_int (latin1_decode (first_segment buf)) = Some indicator /\
      decode_secure_qr buf = Ok r)) /\
  (forall e : decode_error,
     decode_secure_qr buf = Err e ->
     e = MalformedContainer \/ e = InvalidIndicator).
Proof.
  split; [|apply decode_error_cases].
  destruct (Nat.lt_ge_cases (count_delimiters buf) 16) as [Hlt|Hge].
  { left. split; [exact Hlt|]. by apply decode_not_enough. }
  right.
  destruct (py_int (latin1_decode (first_segment buf))) as [indicator|] eqn:Hint.
  - right. split; [exact Hge|].
    destruct (decode_enough buf indicator Hge Hint) as (segs & rest & _ & _ & _ & Hdec).
    eauto.
  - left. split; [exact Hge|]. split; [reflexivity|].
    destruct (segmented_of_count buf Hge) as (segs & rest & Hbuf & Hlen & Hfree & Hhd).
    rewrite Hbuf at 1. rewrite decode_segmented by assumption.
    rewrite Hhd, Hint. reflexivity.
Qed.

(** ** The keys of the record *)

Lemma py_dict_fold_size (ks : list string) :
  forall (vs : list string) (d : gmap string string),
  NoDup ks -> length ks = length vs -> (forall k, k ∈ ks -> d !! k = None) ->
  size (foldl (fun d kv => <[kv.1 := kv.2]> d) d (zip ks vs)) =
    (size d + length ks)%nat.
Proof.
  induction ks as [|k ks IH]; intros vs d Hnd Hlen Hfresh; [simpl; lia|].
  destruct vs as [|v vs]; [discriminate|].
  apply NoDup_cons in Hnd as [Hk Hnd]. simpl.
  rewrite IH; [| assumption | simpl in Hlen; lia |].
  - rewrite map_size_insert_None by (apply Hfresh; left). lia.
  - intros k' Hk'. rewrite lookup_insert_ne by (intros ->; contradiction).
    apply Hfresh. by right.
Qed.

Lemma py_dict_zip_size (ks vs : list string) :
  NoDup ks -> length ks = length vs -> size (py_dict (zip ks vs)) = length ks.
Proof.
  intros Hnd Hlen. unfold py_dict.
  rewrite py_dict_fold_size by (try assumption; intros; apply lookup_empty).
  rewrite map_size_empty. reflexivity.
Qed.

Lemma set_if_true_size key v (d : gmap string string) :
  d !! key = None ->
  size (set_if_true key v d) =
    (size d + match set_if_true key v d !! key with Some _ => 1 | None => 0 end)%nat.
Proof.
  intros Hnone. rewrite set_if_true_lookup, decide_True by reflexivity.
  unfold set_if_true. destruct v as [[|c s]|]; simpl; rewrite ?Hnone; try lia.
  rewrite map_size_insert_None by assumption. lia.
Qed.

(** X2. A returned record holds the 16 text keys and the photo key, and no
    key other than these and the two contact keys; it has 17 entries, plus
    one for each contact key that is set. *)
Theorem X2_record_keys (buf : list byte) (r : gmap string string) :
  decode_secure_qr buf = Ok r ->
  (forall k : string, k ∈ keys \/ k = "photo"%string -> is_Some (r !! k)) /\
  (forall k : string,
     is_Some (r !! k) ->
     k ∈ keys \/ k = "photo"%string \/ k = "mobile"%string \/ k = "email"%string) /\
  size r = (17 + match r !! "mobile"%string with Some _ => 1 | None => 0 end
               + match r !! "email"%string with Some _ => 1 | None => 0 end)%nat.
Proof.
  intros Hok.
  destruct (decode_ok_inv buf r Hok)
    as (segs & rest & indicator & _ & Hlen & _ & _ & _ & ->).
  split; [|split].
  - intros k [Hk| ->].
    + apply list_elem_of_lookup_1 in Hk as [i Hi].
      destruct (build_result_segment buf
                  (Z.of_nat (length (join_segments segs)) - 1) segs indicator
                  i k Hlen Hi) as (seg & _ & Hlookup).
      rewrite Hlookup. by eexists.
    + rewrite build_result_photo. by eexists.
  - intros k Hsome.
    destruct (decide (k ∈ keys)) as [Hk|Hk]; [by left|right].
    destruct (decide (k = "photo"%string)) as [->|Hp]; [by left|right].
    destruct (decide (k = "mobile"%string)) as [->|Hm]; [by left|right].
    destruct (decide (k = "email"%string)) as [->|He]; [reflexivity|].
    exfalso. unfold build_result in Hsome.
    destruct (contact_fields buf indicator) as [mobile email].
    rewrite !set_if_true_lookup in Hsome.
    rewrite !decide_False in Hsome by congruence.
    rewrite lookup_insert_ne in Hsome by congruence.
    rewrite py_dict_zip_other in Hsome by assumption.
    by destruct Hsome.
  - set (last_delimiter := Z.of_nat (length (join_segments segs)) - 1).
    set (text_data := py_dict (zip keys (map latin1_decode segs))).
    unfold build_result.
    destruct (contact_fields buf indicator) as [mobile email].
    assert (text_data !! "photo"%string = None) as Hphoto
      by apply py_dict_zip_other, photo_not_key.
    assert (text_data !! "mobile"%string = None) as Hmobile
      by apply py_dict_zip_other, mobile_not_key.
    assert (text_data !! "email"%string = None) as Hemail
      by apply py_dict_zip_other, email_not_key.
    assert (size text_data = 16%nat) as Hsize.
    { unfold text_data. rewrite py_dict_zip_size; [reflexivity|apply keys_NoDup|].
      rewrite length_map, Hlen. reflexivity. }
    set (d1 := <["photo"%string := b64encode
                   (py_slice buf (last_delimiter + 1) (tail_start buf indicator))]>
                 text_data).
    assert (size d1 = 17%nat) as Hd1
      by (unfold d1; rewrite map_size_insert_None by assumption; lia).
    assert (d1 !! "mobile"%string = None) as Hd1m
      by (unfold d1; rewrite lookup_insert_ne by discriminate; assumption).
    assert (d1 !! "email"%string = None) as Hd1e
      by (unfold d1; rewrite lookup_insert_ne by discriminate; assumption).
    set (d2 := set_if_true "mobile" mobile d1).
    assert (d2 !! "email"%string = None) as Hd2e.
    { unfold d2. rewrite set_if_true_lookup, decide_False by discriminate.
      assumption. }
    rewrite (set_if_true_size "email" email d2 Hd2e).
    assert (set_if_true "email" email d2 !! "mobile"%string = d2 !! "mobile"%string)
      as -> by (rewrite set_if_true_lookup, decide_False by discriminate; reflexivity).
    unfold d2 at 1. rewrite (set_if_true_size "mobile" mobile d1 Hd1m).
    fold d2. rewrite Hd1. reflexivity.
Qed.

(** The scenario of the specification: 16 text keys and the photo. *)
Lemma X2_record_keys_witness :
  size (record_of (decode_secure_qr scenario)) =
    (17 + match record_of (decode_secure_qr scenario) !! "mobile"%string with
          | Some _ => 1 | None => 0 end
        + match record_of (decode_secure_qr scenario) !! "email"%string with
          | Some _ => 1 | None => 0 end)%nat.
Proof.
  apply (X2_record_keys scenario (record_of (decode_secure_qr scenario))).
  vm_compute. reflexivity.
Defined.

(** ** The text region *)

Lemma latin1_encode_decode segs :
  map list_byte_of_string (map latin1_decode segs) = segs.
Proof.
  induction segs as [|seg segs IH]; [reflexivity|]. simpl. rewrite IH.
  unfold latin1_decode. rewrite list_byte_of_string_of_list_byte. reflexivity.
Qed.

(** X3. The text region of the buffer can be rebuilt from the record: the 16
    text values, taken in the order of [keys], encoded back to one byte per
    character and each closed by a delimiter, are the bytes of the buffer up
    to and with its 16th delimiter. *)
Theorem X3_text_region_roundtrip (buf : list byte) (r : gmap string string) :
  decode_secure_qr buf = Ok r ->
  exists (fields : list string) (last_delimiter : Z),
    length fields = 16%nat /\
    sentinel_offsets buf !! 15%nat = Some last_delimiter /\
    (forall (i : nat) (k : string), keys !! i = Some k -> r !! k = fields !! i) /\
    join_segments (map list_byte_of_string fields) =
      take (Z.to_nat last_delimiter + 1) buf.
Proof.
  intros Hok.
  destruct (decode_ok_inv buf r Hok)
    as (segs & rest & indicator & Hbuf & Hlen & Hfree & _ & _ & ->).
  exists (map latin1_decode segs), (Z.of_nat (length (join_segments segs)) - 1).
  split; [by rewrite length_map|]. split.
  { rewrite Hbuf at 1. by apply sixteenth_offset. }
  split.
  - intros i k Hi.
    destruct (build_result_segment buf
                (Z.of_nat (length (join_segments segs)) - 1) segs indicator
                i k Hlen Hi) as (seg & Hseg & Hlookup).
    rewrite Hlookup, list_lookup_fmap, Hseg. reflexivity.
  - rewrite latin1_encode_decode.
    assert (0 < length (join_segments segs))%nat as Hpos
      by (apply join_segments_nonempty; intros ->; discriminate).
    rewrite Hbuf at 1. rewrite take_app_length' by lia. reflexivity.
Qed.

Lemma X3_text_region_roundtrip_witness :
  exists (fields : list string) (last_delimiter : Z),
    length fields = 16%nat /\
    sentinel_offsets scenario !! 15%nat = Some last_delimiter /\
    (forall (i : nat) (k : string), keys !! i = Some k ->
       record_of (decode_secure_qr scenario) !! k = fields !! i) /\
    join_segments (map list_byte_of_string fields) =
      take (Z.to_nat last_delimiter + 1) scenario.
Proof.
  apply (X3_text_region_roundtrip scenario
           (record_of (decode_secure_qr scenario))).
  vm_compute. reflexivity.
Defined.

(** X4. Whether the decoder succeeds, and every text field, depend only on
    the bytes up to the 16th delimiter: with any other bytes after it the
    decoder fails on the indicator in both cases or returns a record in both
    cases, and the two records agree on the 16 text keys. *)
Theorem X4_text_fields_ignore_the_rest
    (buf later : list byte) (last_delimiter : Z) :
  sentinel_offsets buf !! 15%nat = Some last_delimiter ->
  (decode_secure_qr buf = Err InvalidIndicator /\
   decode_secure_qr (take (Z.to_nat last_delimiter + 1) buf ++ later) =
     Err InvalidIndicator) \/
  (exists r r' : gmap string string,
     decode_secure_qr buf = Ok r /\
     decode_secure_qr (take (Z.to_nat last_delimiter + 1) buf ++ later) = Ok r' /\
     forall k : string, k ∈ keys -> r !! k = r' !! k).
Proof.
  intros Hlast.
  assert (16 <= count_delimiters buf)%nat as Hcount.
  { apply lookup_lt_Some in Hlast. unfold sentinel_offsets in Hlast.
    rewrite sentinel_offsets_from_length in Hlast. lia. }
  destruct (segmented_of_count buf Hcount)
    as (segs & rest & -> & Hlen & Hfree & _).
  rewrite sixteenth_offset in Hlast by assumption. injection Hlast as <-.
  assert (0 < length (join_segments segs))%nat as Hpos
    by (apply join_segments_nonempty; intros ->; discriminate).
  rewrite take_app_length' by lia.
  rewrite !decode_segmented by assumption.
  destruct (py_int (latin1_decode (hd [] segs))) as [indicator|]; [right|by left].
  eexists _, _. split; [reflexivity|]. split; [reflexivity|].
  intros k Hk. rewrite !build_result_text by assumption. reflexivity.
Qed.

(** The scenario of the specification, its photo and signature replaced by
    three other bytes. *)
Lemma X4_text_fields_ignore_the_rest_witness :
  (decode_secure_qr scenario = Err InvalidIndicator /\
   decode_secure_qr (take (Z.to_nat 40 + 1) scenario ++ [x01; x02; x03]) =
     Err InvalidIndicator) \/
  (exists r r' : gmap string string,
     decode_secure_qr scenario = Ok r /\
     decode_secure_qr (take (Z.to_nat 40 + 1) scenario ++ [x01; x02; x03]) =
       Ok r' /\
     forall k : string, k ∈ keys -> r !! k = r' !! k).
Proof.
  apply (X4_text_fields_ignore_the_rest scenario [x01; x02; x03] 40).
  reflexivity.
Defined.

Lemma join_segments_length_ge segs :
  (length segs <= length (join_segments segs))%nat.
Proof.
  induction segs as [|seg segs IH]; [simpl; lia|].
  rewrite join_segments_cons, length_app. simpl. lia.
Qed.

(** X5. A buffer that is decoded has at least 17 bytes: the 16 delimiters and
    at least one character of indicator text, since [int] refuses the empty
    text.  Every shorter buffer, the empty one included, raises an error. *)
Theorem X5_shortest_decodable_buffer (buf : list byte) (r : gmap string string) :
  decode_secure_qr buf = Ok r -> (17 <= length buf)%nat.
Proof.
  intros Hok.
  destruct (decode_ok_inv buf r Hok)
    as (segs & rest & indicator & Hbuf & Hlen & _ & Hhd & Hint & _).
  rewrite <- Hhd in Hint.
  destruct segs as [|seg0 segs]; [discriminate|]. cbn [hd] in Hint.
  destruct seg0 as [|b seg0]; [discriminate|].
  pose proof (join_segments_length_ge segs) as Hge.
  rewrite Hbuf, join_segments_cons, !length_app. cbn [length] in *. lia.
Qed.

(** The bound is reached: the buffer of 17 bytes is decoded. *)
Lemma X5_shortest_decodable_buffer_witness :
  (17 <= length truncated_container)%nat.
Proof.
  apply (X5_shortest_decodable_buffer truncated_container
           (record_of (decode_secure_qr truncated_container))).
  vm_compute. reflexivity.
Defined.

(** ** The signature and the contact values *)

Lemma py_slice_app_l {B : Type} (s t : list B) (a b : Z) :
  0 <= a -> 0 <= b -> b <= Z.of_nat (length s) ->
  py_slice (s ++ t) a b = py_slice s a b.
Proof.
  intros Ha Hb Hbs. unfold py_slice, adjust_index. rewrite length_app.
  destruct (Z.ltb_spec a 0); [lia|]. destruct (Z.ltb_spec b 0); [lia|].
  rewrite (Z.min_l b) by lia. rewrite (Z.min_l b) by lia.
  destruct (Z.le_gt_cases b a) as [Hle|Hgt].
  - replace (Z.to_nat (b - _)) with 0%nat by lia.
    replace (Z.to_nat (b - _)) with 0%nat by lia. reflexivity.
  - rewrite !Z.min_l by lia.
    rewrite drop_app_le by lia.
    apply take_app_le. rewrite length_drop. lia.
Qed.

(** X6. The signature is not read: on a body of at least 64 bytes that holds
    the 16 delimiters, followed by 256 bytes, the decoder gives the same
    result whatever these 256 bytes are. *)
Theorem X6_signature_is_not_read (body sig1 sig2 : list byte) :
  (16 <= count_delimiters body)%nat -> (64 <= length body)%nat ->
  length sig1 = 256%nat -> length sig2 = 256%nat ->
  decode_secure_qr (body ++ sig1) = decode_secure_qr (body ++ sig2).
Proof.
  intros Hcount Hbody Hs1 Hs2.
  destruct (segmented_of_count body Hcount)
    as (segs & rest & Hsplit & Hlen & Hfree & _).
  assert (length body = length (join_segments segs) + length rest)%nat as Hlb
    by (rewrite Hsplit at 1; apply length_app).
  assert (forall sig, body ++ sig = join_segments segs ++ rest ++ sig) as Hshape
    by (intros sig; rewrite Hsplit at 1; by rewrite <- app_assoc).
  rewrite (Hshape sig1), (Hshape sig2), !decode_segmented by assumption.
  destruct (py_int (latin1_decode (hd [] segs))) as [indicator|]; [|reflexivity].
  rewrite <- !Hshape. f_equal.
  unfold build_result, contact_fields, contact_hex, tail_start, tail_length,
    tail_extra.
  rewrite !length_app, Hs1, Hs2.
  destruct (Z.eqb_spec indicator 3);
    [|destruct (Z.eqb_spec indicator 1);
      [|destruct (Z.eqb_spec indicator 2)]];
    cbn [orb]; rewrite !py_slice_app_l by lia; reflexivity.
Qed.

(** The body of the container with both contact blocks, under a signature of
    zero bytes and under one of bytes 255. *)
Lemma X6_signature_is_not_read_witness :
  decode_secure_qr
    ((join_segments ([x33] :: repeat [] 15)
        ++ [xde; xad; xbe; xef] ++ mobile_block ++ email_block)
       ++ repeat x00 256) =
  decode_secure_qr
    ((join_segments ([x33] :: repeat [] 15)
        ++ [xde; xad; xbe; xef] ++ mobile_block ++ email_block)
       ++ repeat xff 256).
Proof.
  apply X6_signature_is_not_read.
  - vm_compute. lia.
  - vm_compute. lia.
  - reflexivity.
  - reflexivity.
Defined.

Lemma py_slice_window_le {B : Type} (s : list B) (a n : Z) :
  0 <= n -> Z.of_nat (length (py_slice s a (a + n))) <= n.
Proof.
  intros Hn. unfold py_slice, adjust_index.
  rewrite length_take, length_drop.
  destruct (Z.ltb_spec a 0); destruct (Z.ltb_spec (a + n) 0); lia.
Qed.

Lemma contact_value_shape buf (a b : Z) :
  b = a + 32 -> truthy (Some (contact_hex buf a b)) = true ->
  exists n : nat,
    (1 <= n <= 32)%nat /\
    String.length (contact_hex buf a b) = (2 * n)%nat /\
    Forall (fun c => c ∈ hex_digits) (list_ascii_of_string (contact_hex buf a b)).
Proof.
  intros -> Htrue. apply truthy_contact_hex in Htrue.
  pose proof (py_slice_window_le buf a 32 ltac:(lia)) as Hle.
  exists (length (py_slice buf a (a + 32))). split; [|split].
  - destruct (py_slice buf a (a + 32)); [contradiction|]. simpl in *. lia.
  - unfold contact_hex. rewrite py_hex_length, length_rev. reflexivity.
  - apply Forall_forall. intros c. apply py_hex_chars.
Qed.

(** X7. Whatever the buffer, a contact value of a returned record is a
    non-empty text of lowercase hexadecimal digits, two for each byte of a
    slice of at most 32 bytes: it has an even length between 2 and 64.  (On a
    buffer shorter than its tail it can be shorter than 64.) *)
Theorem X7_contact_value_shape
    (buf : list byte) (r : gmap string string) (key v : string) :
  decode_secure_qr buf = Ok r ->
  key = "mobile"%string \/ key = "email"%string ->
  r !! key = Some v ->
  exists n : nat,
    (1 <= n <= 32)%nat /\ String.length v = (2 * n)%nat /\
    Forall (fun c => c ∈ hex_digits) (list_ascii_of_string v).
Proof.
  intros Hok Hkey Hv.
  destruct (decode_ok_inv buf r Hok)
    as (segs & rest & indicator & _ & _ & _ & _ & _ & ->).
  destruct (record_contacts buf (Z.of_nat (length (join_segments segs)) - 1)
              (map latin1_decode segs) indicator) as [Hm He].
  cbv zeta in Hm, He.
  destruct Hkey as [-> | ->]; [rewrite Hm in Hv | rewrite He in Hv]; clear Hm He;
    destruct (contact_fields_cases buf indicator)
      as [[-> Hcf]|[[-> Hcf]|[[-> Hcf]|(H1 & H2 & H3 & Hcf)]]];
    rewrite Hcf in Hv; cbn [fst snd] in Hv;
    try discriminate;
    match type of Hv with
    | (if truthy (Some (contact_hex ?b ?x ?y)) then _ else _) = _ =>
        destruct (truthy (Some (contact_hex b x y))) eqn:Htrue;
        [injection Hv as <-; apply contact_value_shape; [lia|exact Htrue]
        |discriminate]
    end.
Qed.

(** The mobile value of the buffer of 130 bytes has 8 characters. *)
Lemma X7_contact_value_shape_witness :
  exists n : nat,
    (1 <= n <= 32)%nat /\ String.length "ffffff31" = (2 * n)%nat /\
    Forall (fun c => c ∈ hex_digits) (list_ascii_of_string "ffffff31").
Proof.
  apply (X7_contact_value_shape short_mobile_container
           (record_of (decode_secure_qr short_mobile_container))
           "mobile" "ffffff31").
  - vm_compute. reflexivity.
  - left. reflexivity.
  - vm_compute. reflexivity.
Defined.

(** ** The conversion of the QR text to bytes *)

Lemma byte_of_Z_value z : 0 <= z < 256 -> Z.of_N (Byte.to_N (byte_of_Z z)) = z.
Proof.
  intros Hz. unfold byte_of_Z.
  destruct (Byte.of_N (Z.to_N z)) as [b|] eqn:Hb.
  - apply Byte.to_of_N in Hb. simpl. rewrite Hb. lia.
  - apply Byte.of_N_None_iff in Hb. lia.
Qed.

Lemma low_bytes_length len : forall n, length (low_bytes len n) = len.
Proof. induction len as [|len IH]; intros n; simpl; [|rewrite IH]; reflexivity. Qed.

Lemma from_bytes_big_snoc bs b :
  from_bytes_big (bs ++ [b]) = from_bytes_big bs * 256 + Z.of_N (Byte.to_N b).
Proof. unfold from_bytes_big. by rewrite foldl_snoc. Qed.

(** Read back, the [len] low bytes of [n] give [n] modulo [256 ^ len]. *)
Lemma from_bytes_big_low_bytes len : forall n,
  0 <= n ->
  from_bytes_big (rev (low_bytes len n)) = n mod 256 ^ Z.of_nat len.
Proof.
  induction len as [|len IH]; intros n Hn.
  - simpl. rewrite Z.mod_1_r. reflexivity.
  - cbn [low_bytes rev].
    rewrite from_bytes_big_snoc, IH by (apply Z.div_pos; lia).
    rewrite byte_of_Z_value by (apply Z.mod_pos_bound; lia).
    rewrite Nat2Z.inj_succ, Z.pow_succ_r by lia.
    rewrite (Z.rem_mul_r n 256 (256 ^ Z.of_nat len))
      by (try apply Z.pow_pos_nonneg; lia).
    ring.
Qed.

Lemma from_bytes_big_bound bs :
  0 <= from_bytes_big bs < 256 ^ Z.of_nat (length bs).
Proof.
  induction bs as [|b bs IH] using rev_ind;
    [unfold from_bytes_big; simpl; lia|].
  rewrite from_bytes_big_snoc, length_app. cbn [length].
  pose proof (Byte.to_N_bounded b) as Hb.
  replace (Z.of_nat (length bs + 1)) with (Z.succ (Z.of_nat (length bs))) by lia.
  rewrite Z.pow_succ_r by lia. lia.
Qed.

Lemma from_bytes_big_leading_zero bs :
  from_bytes_big (x00 :: bs) = from_bytes_big bs.
Proof. reflexivity. Qed.

Lemma bit_length_spec n :
  0 < n -> 1 <= bit_length n /\ 2 ^ (bit_length n - 1) <= n < 2 ^ bit_length n.
Proof.
  intros Hn. unfold bit_length.
  destruct (Z.eqb_spec n 0); [lia|]. rewrite Z.abs_eq by lia.
  pose proof (Z.log2_spec n Hn) as Hlog. pose proof (Z.log2_nonneg n) as Hnn.
  replace (Z.log2 n + 1 - 1) with (Z.log2 n) by lia.
  replace (Z.log2 n + 1) with (Z.succ (Z.log2 n)) by lia. lia.
Qed.

(** The number of bytes of line 24 is the least that holds [n]. *)
Lemma nbytes_spec n :
  0 <= n ->
  0 <= (bit_length n + 7) / 8 /\
  n < 256 ^ ((bit_length n + 7) / 8) /\
  (0 < n -> 1 <= (bit_length n + 7) / 8 /\
            256 ^ ((bit_length n + 7) / 8 - 1) <= n).
Proof.
  intros Hn. destruct (Z.eq_dec n 0) as [->|Hne].
  { change ((bit_length 0 + 7) / 8) with 0. simpl. lia. }
  destruct (bit_length_spec n ltac:(lia)) as (HL & Hlow & Hhigh).
  set (L := bit_length n) in *. set (k := (L + 7) / 8).
  assert (L <= 8 * k /\ 8 * (k - 1) <= L - 1 /\ 1 <= k) as (Hk1 & Hk2 & Hk3)
    by (unfold k; Z.to_euclidean_division_equations; lia).
  assert (forall m, 0 <= m -> 256 ^ m = 2 ^ (8 * m)) as Hpow.
  { intros m Hm. rewrite Z.pow_mul_r by lia. reflexivity. }
  rewrite !Hpow by lia. split; [lia|]. split.
  - eapply Z.lt_le_trans; [exact Hhigh|]. apply Z.pow_le_mono_r; lia.
  - intros _. split; [lia|].
    eapply Z.le_trans; [|exact Hlow]. apply Z.pow_le_mono_r; lia.
Qed.


(** X8. When the conversion of lines 22-25 succeeds, whatever the text (any
    code points), the tables of the Unicode database and the limit on the
    digits, the text reads as a number that is not negative and the bytes are
    that number written with the highest byte first: read back they give the
    number, there are [(bit_length + 7) // 8] of them, and the first one is
    not zero (so the number 0 gives no byte at all). *)
Theorem X8_conversion_roundtrip
    (max_str_digits : nat) (unicode_decimal : N -> option N)
    (unicode_space : N -> bool) (qr_str : list N) (data_bytes : list byte) :
  convert_qr_data max_str_digits unicode_decimal unicode_space qr_str =
    Some data_bytes ->
  exists big_int : Z,
    py_int_text max_str_digits unicode_decimal unicode_space qr_str =
      Some big_int /\
    0 <= big_int /\
    from_bytes_big data_bytes = big_int /\
    Z.of_nat (length data_bytes) = (bit_length big_int + 7) / 8 /\
    hd_error data_bytes <> Some x00.
Proof.
  unfold convert_qr_data, to_bytes_big.
  destruct (py_int_text max_str_digits unicode_decimal unicode_space qr_str)
    as [n|]; [|discriminate].
  destruct (Z.ltb_spec n 0) as [|Hn]; [discriminate|].
  destruct (nbytes_spec n Hn) as (Hk & Hfit & Hleast).
  set (k := (bit_length n + 7) / 8) in *.
  destruct (Z.ltb_spec k 0); [lia|]. cbn [orb].
  destruct (Z.leb_spec (256 ^ k) n); [lia|].
  intros [= <-]. exists n. split; [reflexivity|]. split; [exact Hn|].
  assert (from_bytes_big (rev (low_bytes (Z.to_nat k) n)) = n) as Hvalue.
  { rewrite from_bytes_big_low_bytes by assumption.
    rewrite Z2Nat.id by lia. apply Z.mod_small. lia. }
  assert (length (rev (low_bytes (Z.to_nat k) n)) = Z.to_nat k) as Hlen
    by (rewrite length_rev; apply low_bytes_length).
  split; [exact Hvalue|]. split; [rewrite Hlen; lia|].
  destruct (rev (low_bytes (Z.to_nat k) n)) as [|b bs] eqn:Hbs; [discriminate|].
  simpl. intros [= ->].
  rewrite from_bytes_big_leading_zero in Hvalue.
  pose proof (from_bytes_big_bound bs) as Hbound.
  simpl in Hlen.
  assert (0 < n) as Hpos.
  { destruct (Z.eq_dec n 0) as [Hzero|]; [|lia]. exfalso.
    unfold k in Hlen. rewrite Hzero in Hlen. discriminate Hlen. }
  destruct (Hleast Hpos) as [_ Hlow].
  replace (Z.of_nat (length bs)) with (k - 1) in Hbound by lia. lia.
Qed.

(** The text of the two Arabic-Indic digits one and two, U+0661 and U+0662,
    reads as 12 and gives the one byte 12. *)
Lemma X8_conversion_roundtrip_witness :
  exists big_int : Z,
    py_int_text 4300 sample_decimal sample_space [1633; 1634]%N =
      Some big_int /\
    0 <= big_int /\
    from_bytes_big [x0c] = big_int /\
    Z.of_nat (length [x0c]) = (bit_length big_int + 7) / 8 /\
    hd_error [x0c] <> Some x00.
Proof.
  apply (X8_conversion_roundtrip 4300 sample_decimal sample_space
           [1633; 1634]%N [x0c]).
  vm_compute. reflexivity.
Defined.

(** X9. Whatever the text (any code points), the tables of the Unicode
    database and the limit on the digits, the conversion of lines 22-25
    raises its error exactly when [int] refuses the text or the number is
    negative ([to_bytes] refuses a negative number); every text that [int]
    reads as a number that is not negative is converted. *)
Theorem X9_conversion_errors
    (max_str_digits : nat) (unicode_decimal : N -> option N)
    (unicode_space : N -> bool) (qr_str : list N) :
  convert_qr_data max_str_digits unicode_decimal unicode_space qr_str = None <->
  py_int_text max_str_digits unicode_decimal unicode_space qr_str = None \/
  exists big_int : Z,
    py_int_text max_str_digits unicode_decimal unicode_space qr_str =
      Some big_int /\ big_int < 0.
Proof.
  unfold convert_qr_data, to_bytes_big.
  destruct (py_int_text max_str_digits unicode_decimal unicode_space qr_str)
    as [n|]; [|intuition].
  destruct (Z.ltb_spec n 0) as [Hneg|Hn].
  - cbn [orb]. split; [|reflexivity]. intros _. right. eauto.
  - destruct (nbytes_spec n Hn) as (Hk & Hfit & _).
    destruct (Z.ltb_spec ((bit_length n + 7) / 8) 0); [lia|]. cbn [orb].
    destruct (Z.leb_spec (256 ^ ((bit_length n + 7) / 8)) n); [lia|].
    split; [discriminate|]. intros [Hnone|(m & Hm & Hneg)]; [discriminate|].
    injection Hm as <-. lia.
Qed.

Example convert_negative :
  convert_qr_data 4300 sample_decimal sample_space (code_points "-5") = None.
Proof. vm_compute. reflexivity. Qed.

Example convert_zero :
  convert_qr_data 4300 sample_decimal sample_space (code_points " 0 ") = Some [].
Proof. vm_compute. reflexivity. Qed.

Example convert_leading_zeros :
  convert_qr_data 4300 sample_decimal sample_space (code_points "00065_535") =
    Some [xff; xff].
Proof. vm_compute. reflexivity. Qed.

(** A no-break space, Arabic-Indic digits and an ASCII digit in one text. *)
Example convert_mixed_digits :
  convert_qr_data 4300 sample_decimal sample_space [160; 1634; 53; 1638]%N =
    Some [x01; x00].
Proof. vm_compute. reflexivity. Qed.

(** A character that is no digit cuts the text: the conversion fails. *)
Example convert_letter :
  convert_qr_data 4300 sample_decimal sample_space [49; 233]%N = None.
Proof. vm_compute. reflexivity. Qed.

(** ** The decoder and the settings of the interpreter *)

Lemma exceeds_limit_default digits :
  exceeds_limit int_max_str_digits digits = (int_max_str_digits <? digits)%nat.
Proof.
  unfold exceeds_limit, max_str_digits_threshold.
  destruct (Nat.ltb_spec int_max_str_digits digits) as [Hlt|Hge].
  - rewrite andb_true_r.
    assert (640 < digits)%nat as H640 by (unfold int_max_str_digits in Hlt; lia).
    apply Nat.ltb_lt in H640. rewrite H640. reflexivity.
  - apply andb_false_r.
Qed.

(** [py_int] is [int] under the default limit. *)
Lemma py_int_default s : py_int_under int_max_str_digits s = py_int s.
Proof.
  unfold py_int_under, parse_literal, py_int.
  repeat case_match; simplify_eq; try reflexivity;
    match goal with
    | H : exceeds_limit int_max_str_digits _ = _ |- _ =>
        rewrite exceeds_limit_default in H; congruence
    end.
Qed.

Lemma skip_spaces_length s : (length (skip_spaces s) <= length s)%nat.
Proof.
  induction s as [|c s IH]; simpl; [lia|]. destruct (is_space c); simpl; lia.
Qed.

Lemma scan_digits_count s : forall prev acc digits v n rest,
  scan_digits s prev acc digits = Some (v, n, rest) ->
  (n <= digits + length s)%nat.
Proof.
  induction s as [|c s IH]; intros prev acc digits v n rest; simpl.
  - destruct prev; [discriminate|]. intros [= _ <- _]. lia.
  - destruct (digit_value c) as [d|].
    + intros H. apply IH in H. lia.
    + destruct (is_underscore c).
      * destruct prev; [discriminate|]. intros H. apply IH in H. lia.
      * destruct prev; [discriminate|]. intros [= _ <- _]. lia.
Qed.

(** A literal has no more digits than the text has characters. *)
Lemma parse_literal_digits s v n :
  parse_literal s = Some (v, n) ->
  (n <= length (list_ascii_of_string s))%nat.
Proof.
  unfold parse_literal.
  pose proof (skip_spaces_length (list_ascii_of_string s)) as Hskip.
  destruct (skip_spaces (list_ascii_of_string s)) as [|c rest] eqn:Hs1;
    [discriminate|].
  simpl in Hskip. intros H.
  repeat case_match; simplify_eq;
    match goal with
    | Hscan : scan_digits _ _ _ _ = Some _ |- _ =>
        apply scan_digits_count in Hscan; cbn [length] in *; lia
    end.
Qed.

(** Below the threshold of 640 characters the limit plays no part. *)
Lemma py_int_under_short limit1 limit2 s :
  (length (list_ascii_of_string s) <= 640)%nat ->
  py_int_under limit1 s = py_int_under limit2 s.
Proof.
  intros Hshort. unfold py_int_under.
  destruct (parse_literal s) as [[v n]|] eqn:Hparse; [|reflexivity].
  apply parse_literal_digits in Hparse.
  unfold exceeds_limit, max_str_digits_threshold.
  destruct (Nat.ltb_spec 640 n); [lia|]. reflexivity.
Qed.

Lemma decode_with_segmented int segs rest :
  Forall delimiter_free segs -> length segs = 16%nat ->
  decode_secure_qr_with int (join_segments segs ++ rest) =
    match int (latin1_decode (hd [] segs)) with
    | None => Err InvalidIndicator
    | Some indicator =>
        Ok (build_result (join_segments segs ++ rest)
              (Z.of_nat (length (join_segments segs)) - 1)
              (py_dict (zip keys (map latin1_decode segs))) indicator)
    end.
Proof.
  intros Hfree Hlen. unfold decode_secure_qr_with.
  rewrite scan_delimiters_join by assumption.
  rewrite segment_ends_length, Hlen.
  change (16 <? 16)%nat with false. cbv iota.
  pose proof (extract_fields_join segs [] rest) as Hfields.
  change (Z.of_nat (length (@nil byte))) with 0 in Hfields.
  cbn [app] in Hfields. rewrite Hfields.
  rewrite length_map, Hlen, keys_length.
  change (negb (16 =? 16)%nat) with false. cbv iota.
  destruct segs as [|seg0 segs]; [discriminate|].
  rewrite (py_dict_zip_lookup keys _ 0 "indicator" (latin1_decode seg0));
    [|apply keys_NoDup|reflexivity|reflexivity].
  cbn [mbind option_bind hd].
  rewrite last_segment_ends by discriminate.
  reflexivity.
Qed.

Lemma decode_with_not_enough int buf :
  (count_delimiters buf < 16)%nat ->
  decode_secure_qr_with int buf = Err MalformedContainer.
Proof.
  intros Hcount. unfold decode_secure_qr_with.
  rewrite scan_delimiters_offsets by (simpl; lia).
  cbn [app length]. rewrite length_take, sentinel_offsets_from_length.
  destruct (Nat.ltb_spec ((16 - 0) `min` count_delimiters buf) 16);
    [reflexivity|lia].
Qed.

(** The decoder reads its environment through one answer only: what [int]
    makes of the indicator text. *)
Lemma decode_with_agree int1 int2 buf :
  int1 (latin1_decode (first_segment buf)) =
    int2 (latin1_decode (first_segment buf)) ->
  decode_secure_qr_with int1 buf = decode_secure_qr_with int2 buf.
Proof.
  intros Hagree.
  destruct (Nat.lt_ge_cases (count_delimiters buf) 16) as [Hlt|Hge].
  { rewrite !decode_with_not_enough by assumption. reflexivity. }
  destruct (segmented_of_count buf Hge)
    as (segs & rest & Hbuf & Hlen & Hfree & Hhd).
  rewrite Hbuf. rewrite !decode_with_segmented by assumption.
  rewrite Hhd, Hagree. reflexivity.
Qed.

Lemma decode_under_default buf :
  decode_secure_qr_under int_max_str_digits buf = decode_secure_qr buf.
Proof.
  unfold decode_secure_qr_under.
  change (decode_secure_qr buf) with (decode_secure_qr_with py_int buf).
  apply decode_with_agree, py_int_default.
Qed.

(** C9, as the specification has it, fails: the decoder depends on a state
    of the interpreter, the limit on the digits that [int] reads at line 65.
    The buffer whose indicator text has 4301 digits is refused under the
    default limit of 4300 and decoded, with the indicator 1, under a limit of
    5000: two invocations on the same bytes with different results. *)
Lemma C9_result_changes_with_the_digit_limit :
  decode_secure_qr digit_limit_container = Err InvalidIndicator /\
  decode_secure_qr_under 4300 digit_limit_container = Err InvalidIndicator /\
  py_int_under 5000 (latin1_decode (first_segment digit_limit_container)) =
    Some 1 /\
  decode_secure_qr_under 5000 digit_limit_container =
    Ok (record_of (decode_secure_qr_under 5000 digit_limit_container)) /\
  decode_secure_qr_under 4300 digit_limit_container <>
    decode_secure_qr_under 5000 digit_limit_container.
Proof.
  assert (decode_secure_qr_under 4300 digit_limit_container =
          Err InvalidIndicator) as H4300 by (vm_compute; reflexivity).
  assert (decode_secure_qr_under 5000 digit_limit_container =
          Ok (record_of (decode_secure_qr_under 5000 digit_limit_container)))
    as H5000 by (vm_compute; reflexivity).
  split; [vm_compute; reflexivity|]. split; [exact H4300|].
  split; [vm_compute; reflexivity|]. split; [exact H5000|].
  rewrite H4300, H5000. discriminate.
Qed.

(** C9, amended.  The result of the decoder is settled by the bytes of the
    buffer and by what [int] makes of the indicator text, which is read under
    the limit on the digits that the interpreter holds: with the same answer
    of [int] the result is the same, record or error; [decode_secure_qr] is
    the decoder under the default limit; and for a buffer whose indicator
    text has at most 640 characters, the threshold below which the limit is
    not tested, the result is the same under every limit. *)
Theorem C9_same_result_under_any_digit_limit (buf : list byte) :
  decode_secure_qr_under int_max_str_digits buf = decode_secure_qr buf /\
  (forall int1 int2 : string -> option Z,
     int1 (latin1_decode (first_segment buf)) =
       int2 (latin1_decode (first_segment buf)) ->
     decode_secure_qr_with int1 buf = decode_secure_qr_with int2 buf) /\
  (forall limit1 limit2 : nat,
     (length (first_segment buf) <= 640)%nat ->
     decode_secure_qr_under limit1 buf = decode_secure_qr_under limit2 buf).
Proof.
  split; [apply decode_under_default|]. split.
  - intros int1 int2. apply decode_with_agree.
  - intros limit1 limit2 Hshort. unfold decode_secure_qr_under.
    apply decode_with_agree, py_int_under_short.
    rewrite latin1_decode_chars, length_map. exact Hshort.
Qed.

(** The scenario of the specification, with the limit switched off and with
    the smallest limit that the interpreter accepts. *)
Lemma C9_same_result_under_any_digit_limit_witness :
  decode_secure_qr_under 0 scenario = decode_secure_qr_under 640 scenario.
Proof.
  apply (C9_same_result_under_any_digit_limit scenario).
  vm_compute. lia.
Defined.
